(** * proxydial: a guarded replacement for Go's net.Dialer

    Shallow embedding of package [proxydial] (dialer.go, port.go) and proofs
    about the authorisation order of [Dial], the address policy, the default
    policy table and the serial connector's time budget.

    Conventions.
    - A Go function returning [(T, error)] is a function into [result T].
    - Code that calls the operating system (service lookup, DNS, the clock,
      net.Dialer.Dial) runs in the monad [M]: it threads the chronological
      list of calls made so far, each with the answer it got, and may panic.
    - Go's standard library is an interface ([NetLib] for its pure
      functions, [World] for the calls that reach outside the process); the
      package's own code is written over that interface.  A reference
      instance, [GoNet], is given further down to run the code. *)

From Stdlib Require Import ZArith List String Ascii Bool Lia DecimalString.
Import ListNotations.
Open Scope string_scope.
Open Scope list_scope.
Open Scope Z_scope.

Set Implicit Arguments.

(** ** Go base values *)

(** [time.Duration] is an int64 count of nanoseconds. *)
Definition Duration := Z.
Definition Second : Duration := 1000000000.

Definition minInt64 : Z := - 2 ^ 63.
Definition maxInt64 : Z := 2 ^ 63 - 1.

(** Conversion of an [int] to [int16]: the low 16 bits, two's complement. *)
Definition int16 (x : Z) : Z := (x + 32768) mod 65536 - 32768.

(** [time.Time], as nanoseconds elapsed since the zero Time. *)
Module time.
Definition Time := Z.
Definition IsZero (t : Time) : bool := t =? 0.
Definition Add (t : Time) (d : Duration) : Time := t + d.
Definition Before (t u : Time) : bool := t <? u.
(** [t.Sub(u)] saturates at the largest and smallest Duration. *)
Definition Sub (t u : Time) : Duration :=
  Z.max minInt64 (Z.min maxInt64 (t - u)).
End time.

(** ** Errors *)

(** The error values the package builds or passes on; [Error] renders the
    message the way the code formats it. *)
Inductive error : Type :=
| ErrInvalidNet (network addr : string)
| ErrBlockedPort (addr : string)
| ErrBlockedRange (addr ip : string)
| ErrNoAddresses (addr : string)
| AddrError (Err Addr : string)
| ErrNet (msg : string).

Definition Error (e : error) : string :=
  (match e with
  | ErrInvalidNet network addr =>
      "dialer.Dial " ++ network ++ " " ++ addr ++ ": invalid net"
  | ErrBlockedPort addr => "dialer.Dial " ++ addr ++ ": blocked port"
  | ErrBlockedRange addr ip =>
      "dialer.Dial " ++ addr ++ ": blocked range (" ++ ip ++ ")"
  | ErrNoAddresses addr => "dialer.Dial no IP addresses found: " ++ addr
  | AddrError err addr => "address " ++ addr ++ ": " ++ err
  | ErrNet msg => msg
  end)%string.

Inductive result (T : Type) : Type :=
| Ok (v : T)
| Err (err : error).
Arguments Ok {T} v.
Arguments Err {T} err.

(** A computation either returns or panics with a message. *)
Inductive run (A : Type) : Type :=
| Returns (a : A)
| Panics (msg : string).
Arguments Returns {A} a.
Arguments Panics {A} msg.

(** ** The standard library, as an interface *)

Class NetLib : Type := {
  (** net.IP, net.IPNet, net.Conn, net.Addr *)
  IP : Type;
  IPNet : Type;
  Conn : Type;
  Addr : Type;
  IsPrivate : IP -> bool;
  IsLoopback : IP -> bool;
  IsLinkLocalUnicast : IP -> bool;
  IsLinkLocalMulticast : IP -> bool;
  IsMulticast : IP -> bool;
  IsInterfaceLocalMulticast : IP -> bool;
  IsUnspecified : IP -> bool;
  Contains : IPNet -> IP -> bool;
  IPString : IP -> string;
  ParseCIDR : string -> result IPNet;
  SplitHostPort : string -> result (string * string);
  JoinHostPort : string -> string -> string;
  Itoa : Z -> string
}.

Section Package.
Context {N : NetLib}.

(** net.Dialer: the four fields the package sets. *)
Record NetDialer : Type := mkNetDialer {
  nd_Timeout : Duration;
  nd_Deadline : time.Time;
  nd_KeepAlive : Duration;
  nd_LocalAddr : option Addr
}.

(** One call that left the process, with its answer. *)
Inductive Event : Type :=
| EvLookupPort (network service : string) (r : result Z)
| EvLookupIP (host : string) (r : result (list IP))
| EvNow (t : time.Time)
| EvDial (dialer : NetDialer) (network address : string) (r : result Conn).

Definition Trace := list Event.

(** What the outside answers; an answer may depend on everything that
    happened before. *)
Record World : Type := mkWorld {
  w_LookupPort : Trace -> string -> string -> result Z;
  w_LookupIP : Trace -> string -> result (list IP);
  w_Now : Trace -> time.Time;
  w_Dial : Trace -> NetDialer -> string -> string -> result Conn
}.

(** ** The monad: call history plus panics *)

Definition M (A : Type) : Type := Trace -> run A * Trace.

Definition ret {A} (a : A) : M A := fun tr => (Returns a, tr).

Definition bind {A B} (m : M A) (f : A -> M B) : M B :=
  fun tr =>
    match m tr with
    | (Returns a, tr') => f a tr'
    | (Panics msg, tr') => (Panics msg, tr')
    end.

Definition panic {A} (msg : string) : M A := fun tr => (Panics msg, tr).

Definition emit {A} (answer : Trace -> A) (ev : A -> Event) : M A :=
  fun tr => let a := answer tr in (Returns a, tr ++ [ev a]).

End Package.

Declare Scope go_scope.
Delimit Scope go_scope with go.
Notation "x <- m ;; k" := (bind m (fun x => k))
  (at level 61, m at next level, right associativity) : go_scope.
Open Scope go_scope.

Section Calls.
Context {N : NetLib} (W : World).

Definition net_LookupPort (network service : string) : M (result Z) :=
  emit (fun tr => w_LookupPort W tr network service)
       (EvLookupPort network service).

Definition net_LookupIP (host : string) : M (result (list IP)) :=
  emit (fun tr => w_LookupIP W tr host) (EvLookupIP host).

Definition time_Now : M time.Time := emit (w_Now W) EvNow.

Definition net_Dialer_Dial (dialer : NetDialer) (network address : string)
  : M (result Conn) :=
  emit (fun tr => w_Dial W tr dialer network address)
       (EvDial dialer network address).

(** Integer division of Durations: truncated, and a run-time panic when
    the divisor is zero. *)
Definition go_div (a b : Z) : M Z :=
  if b =? 0 then panic "runtime error: integer divide by zero"
  else ret (Z.quot a b).

End Calls.

(** ** port.go *)

Definition big : Z := 16777215. (* 0xFFFFFF *)

Definition byte (c : ascii) : Z := Z.of_N (N_of_ascii c).

Definition isDigit (c : ascii) : bool := (48 <=? byte c) && (byte c <=? 57).

Fixpoint skip (i0 : nat) (s : string) : string :=
  match i0, s with
  | O, _ => s
  | S k, String _ rest => skip k rest
  | S _, EmptyString => EmptyString
  end.

(** The loop of [dtoi] over [s[i:]]: [inl (n, i)] when the loop condition
    fails at index [i], [inr i] for the early return at [n >= big]. *)
Fixpoint dtoi_loop (rest : string) (n : Z) (i : nat) : (Z * nat) + nat :=
  match rest with
  | String c rest' =>
      if isDigit c then
        let n' := n * 10 + (byte c - 48) in
        if n' >=? big then inr i else dtoi_loop rest' n' (S i)
      else inl (n, i)
  | EmptyString => inl (n, i)
  end.

(** Decimal to integer starting at [s[i0]]: number, new offset, success. *)
Definition dtoi (s : string) (i0 : nat) : Z * nat * bool :=
  match dtoi_loop (skip i0 s) 0 i0 with
  | inr i => (0, i, false)
  | inl (n, i) => if Nat.eqb i i0 then (0, i, false) else (n, i, true)
  end.

Section Proxydial.
Context {N : NetLib} (W : World).

Definition parsePort (network port : string) : M (result Z) :=
  let '(p, i, ok) := dtoi port 0 in
  r <- (if negb ok || negb (Nat.eqb i (String.length port))
        then net_LookupPort W network port
        else ret (Ok p)) ;;
  match r with
  | Err err => ret (Err err)
  | Ok p =>
      if (p <? 0) || (p >? 65535)
      then ret (Err (AddrError "invalid port" port))
      else ret (Ok p)
  end.

(** ** dialer.go *)

Record Dialer : Type := mkDialer {
  AllowedNets : list string;
  AllowedPorts : list Z; (* []int16 *)
  BlockedRanges : list IPNet;
  BlockPrivate : bool;
  BlockLinkLocal : bool;
  BlockMulticast : bool;
  BlockUnspecified : bool;
  Timeout : Duration;
  Deadline : time.Time;
  KeepAlive : Duration;
  LocalAddr : option Addr
}.

(** [cidrRange] panics when the literal does not parse. *)
Definition cidrRange (str : string) : run IPNet :=
  match ParseCIDR str with
  | Err err => Panics (Error err)
  | Ok net => Returns net
  end.

Fixpoint cidrRanges (strs : list string) : run (list IPNet) :=
  match strs with
  | [] => Returns []
  | str :: rest =>
      match cidrRange str with
      | Panics msg => Panics msg
      | Returns net =>
          match cidrRanges rest with
          | Panics msg => Panics msg
          | Returns nets => Returns (net :: nets)
          end
      end
  end.

Definition DefaultRanges : list string :=
  [ "0.0.0.0/8"; "10.0.0.0/8"; "100.64.0.0/10"; "127.0.0.0/8";
    "169.254.0.0/16"; "172.16.0.0/12"; "192.0.0.0/24"; "192.0.2.0/24";
    "192.88.99.0/24"; "192.168.0.0/16"; "198.18.0.0/15"; "198.51.100.0/24";
    "203.0.113.0/24"; "224.0.0.0/4"; "240.0.0.0/4"; "255.255.255.255/32";
    "::/128"; "::1/128"; "100::/64"; "64:ff9b::/96"; "2001::/32";
    "2001:10::/28"; "2001:20::/28"; "2001:db8::/32"; "2002::/16";
    "fc00::/7"; "fe80::/10"; "ff00::/8" ].

(** The package variable [DefaultDialer]; its initialiser runs [cidrRange]
    on every literal, so package initialisation may panic. *)
Definition DefaultDialer : run Dialer :=
  match cidrRanges DefaultRanges with
  | Panics msg => Panics msg
  | Returns nets =>
      Returns {| AllowedNets := ["tcp"];
                 AllowedPorts := [80; 443; 8080; 8443];
                 BlockedRanges := nets;
                 BlockPrivate := true;
                 BlockLinkLocal := true;
                 BlockMulticast := true;
                 BlockUnspecified := true;
                 Timeout := 0;
                 Deadline := 0;
                 KeepAlive := 0;
                 LocalAddr := None |}
  end.

Definition allowedNet (d : Dialer) (network : string) : bool :=
  existsb (fun net => String.eqb net network) (AllowedNets d).

Definition allowedPort (d : Dialer) (port : Z) : bool :=
  existsb (fun p => p =? port) (AllowedPorts d).

Definition allowedIP (d : Dialer) (ip : IP) : bool :=
  if BlockPrivate d && (IsPrivate ip || IsLoopback ip) then false
  else if BlockLinkLocal d
          && (IsLinkLocalUnicast ip || IsLinkLocalMulticast ip) then false
  else if BlockMulticast d
          && (IsMulticast ip || IsInterfaceLocalMulticast ip) then false
  else if BlockUnspecified d && IsUnspecified ip then false
  else negb (existsb (fun netrange => Contains netrange ip) (BlockedRanges d)).

Definition set_Deadline (dialer : NetDialer) (t : time.Time) : NetDialer :=
  mkNetDialer (nd_Timeout dialer) t (nd_KeepAlive dialer) (nd_LocalAddr dialer).

Definition set_Timeout (dialer : NetDialer) (t : Duration) : NetDialer :=
  mkNetDialer t (nd_Deadline dialer) (nd_KeepAlive dialer) (nd_LocalAddr dialer).

(** First block of [dialSerial]: a deadline is set whenever a timeout is. *)
Definition ensureDeadline (d : Dialer) (dialer : NetDialer) : M NetDialer :=
  if nd_Timeout dialer >? 0 then
    now <- time_Now W ;;
    let newDeadline := time.Add now (nd_Timeout dialer) in
    if time.IsZero (nd_Deadline dialer)
       || time.Before newDeadline (Deadline d)
    then ret (set_Deadline dialer newDeadline)
    else ret dialer
  else ret dialer.

(** Second block of [dialSerial]: the timeout of each attempt, for [n]
    candidates. *)
Definition divideTimeout (dialer : NetDialer) (n : Z) : M NetDialer :=
  if negb (time.IsZero (nd_Deadline dialer)) then
    now <- time_Now W ;;
    let totalTime := time.Sub (nd_Deadline dialer) now in
    newTimeout <- go_div totalTime n ;;
    let newTimeout :=
      if newTimeout <? 2 * Second then 2 * Second else newTimeout in
    if (nd_Timeout dialer =? 0) || (newTimeout <? nd_Timeout dialer)
    then ret (set_Timeout dialer newTimeout)
    else ret dialer
  else ret dialer.

(** The net.Dialer that [dialSerial] hands to every attempt. *)
Definition serialDialer (d : Dialer) (n : Z) : M NetDialer :=
  dialer <- ensureDeadline d
              (mkNetDialer (Timeout d) (Deadline d) (KeepAlive d)
                           (LocalAddr d)) ;;
  divideTimeout dialer n.

(** The loop of [dialSerial]: [inl conn] is the return from inside the
    loop, [inr firstErr] is falling out of it. *)
Fixpoint dialEach (dialer : NetDialer) (network port : string)
    (ips : list IP) (firstErr : option error) : M (Conn + option error) :=
  match ips with
  | [] => ret (inr firstErr)
  | ip :: rest =>
      r <- net_Dialer_Dial W dialer network
             (JoinHostPort (IPString ip) port) ;;
      match r with
      | Err err =>
          dialEach dialer network port rest
            (match firstErr with None => Some err | Some _ => firstErr end)
      | Ok conn => ret (inl conn)
      end
  end.

Definition dialSerial (d : Dialer) (network addr : string) (ips : list IP)
    (port : string) : M (result Conn) :=
  dialer <- serialDialer d (Z.of_nat (List.length ips)) ;;
  r <- dialEach dialer network port ips None ;;
  match r with
  | inl conn => ret (Ok conn)
  | inr firstErr =>
      ret (Err (match firstErr with
                | None => ErrNoAddresses addr
                | Some err => err
                end))
  end.

Definition Dial (d : Dialer) (network addr : string) : M (result Conn) :=
  if negb (allowedNet d network)
  then ret (Err (ErrInvalidNet network addr))
  else
    match SplitHostPort addr with
    | Err err => ret (Err err)
    | Ok (host, port) =>
        r <- parsePort network port ;;
        match r with
        | Err err => ret (Err err)
        | Ok portnum =>
            if negb (allowedPort d (int16 portnum))
            then ret (Err (ErrBlockedPort addr))
            else
              r <- net_LookupIP W host ;;
              match r with
              | Err err => ret (Err err)
              | Ok ips =>
                  match find (fun ip => negb (allowedIP d ip)) ips with
                  | Some ip =>
                      ret (Err (ErrBlockedRange addr (IPString ip)))
                  | None => dialSerial d network addr ips (Itoa portnum)
                  end
              end
        end
    end.

End Proxydial.

(** ** The earlier revision of dialer.go (package proxydialer)

    It has no classification flags, and its table of blocked ranges reads
    169.24.0.0/16 where the current one reads 169.254.0.0/16.  *)
Module Proxydialer.
Section Legacy.
Context {N : NetLib}.

Definition DefaultRanges : list string :=
  [ "0.0.0.0/8"; "10.0.0.0/8"; "100.64.0.0/10"; "127.0.0.0/8";
    "169.24.0.0/16"; "172.16.0.0/12"; "192.0.0.0/24"; "192.0.2.0/24";
    "192.88.99.0/24"; "192.168.0.0/16"; "198.18.0.0/15"; "198.51.100.0/24";
    "203.0.113.0/24"; "224.0.0.0/4"; "240.0.0.0/4"; "255.255.255.255/32";
    "::/128"; "::1/128"; "100::/64"; "64:ff9b::/96"; "2001::/32";
    "2001:10::/28"; "2001:20::/28"; "2001:db8::/32"; "2002::/16";
    "fc00::/7"; "fe80::/10"; "ff00::/8" ].

Definition allowedIP (BlockedRanges : list IPNet) (ip : IP) : bool :=
  negb (existsb (fun netrange => Contains netrange ip) BlockedRanges).

End Legacy.
End Proxydialer.

(** ** A reference instance of the standard library

    The parts of Go's [net] and [strconv] packages that the dialer calls,
    written after their documented behaviour, so that the package can be run
    on concrete addresses.  No general theorem below depends on it. *)
Module GoNet.

Definition IP := list Z.

Record IPNet : Type := mkIPNet { net_IP : IP; net_Mask : list Z }.

Definition IPv4len : nat := 4.
Definition IPv6len : nat := 16.

Definition v4InV6Prefix : list Z := [0; 0; 0; 0; 0; 0; 0; 0; 0; 0; 255; 255].

Fixpoint bytesEqual (a b : list Z) : bool :=
  match a, b with
  | [], [] => true
  | x :: a', y :: b' => (x =? y) && bytesEqual a' b'
  | _, _ => false
  end.

Definition at_ (ip : list Z) (i : nat) : Z := nth i ip 0.

Definition To4 (ip : IP) : option IP :=
  if Nat.eqb (List.length ip) IPv4len then Some ip
  else if Nat.eqb (List.length ip) IPv6len
          && bytesEqual (firstn 12 ip) v4InV6Prefix
       then Some (skipn 12 ip)
       else None.

Definition Equal (ip x : IP) : bool :=
  if Nat.eqb (List.length ip) (List.length x) then bytesEqual ip x
  else if Nat.eqb (List.length ip) IPv4len && Nat.eqb (List.length x) IPv6len
       then bytesEqual (firstn 12 x) v4InV6Prefix && bytesEqual ip (skipn 12 x)
  else if Nat.eqb (List.length ip) IPv6len && Nat.eqb (List.length x) IPv4len
       then bytesEqual (firstn 12 ip) v4InV6Prefix && bytesEqual (skipn 12 ip) x
  else false.

Definition IPv4 (a b c d : Z) : IP := v4InV6Prefix ++ [a; b; c; d].
Definition IPv4zero : IP := IPv4 0 0 0 0.
Definition IPv6unspecified : IP := repeat 0 16.
Definition IPv6loopback : IP := repeat 0 15 ++ [1].

Definition IsUnspecified (ip : IP) : bool :=
  Equal ip IPv4zero || Equal ip IPv6unspecified.

Definition IsLoopback (ip : IP) : bool :=
  match To4 ip with
  | Some ip4 => at_ ip4 0 =? 127
  | None => Equal ip IPv6loopback
  end.

Definition IsPrivate (ip : IP) : bool :=
  match To4 ip with
  | Some ip4 =>
      (at_ ip4 0 =? 10)
      || ((at_ ip4 0 =? 172) && (Z.land (at_ ip4 1) 240 =? 16))
      || ((at_ ip4 0 =? 192) && (at_ ip4 1 =? 168))
  | None =>
      Nat.eqb (List.length ip) IPv6len && (Z.land (at_ ip 0) 254 =? 252)
  end.

Definition IsMulticast (ip : IP) : bool :=
  match To4 ip with
  | Some ip4 => Z.land (at_ ip4 0) 240 =? 224
  | None => Nat.eqb (List.length ip) IPv6len && (at_ ip 0 =? 255)
  end.

Definition IsInterfaceLocalMulticast (ip : IP) : bool :=
  Nat.eqb (List.length ip) IPv6len
  && (at_ ip 0 =? 255) && (Z.land (at_ ip 1) 15 =? 1).

Definition IsLinkLocalMulticast (ip : IP) : bool :=
  match To4 ip with
  | Some ip4 => (at_ ip4 0 =? 224) && (at_ ip4 1 =? 0) && (at_ ip4 2 =? 0)
  | None =>
      Nat.eqb (List.length ip) IPv6len
      && (at_ ip 0 =? 255) && (Z.land (at_ ip 1) 15 =? 2)
  end.

Definition IsLinkLocalUnicast (ip : IP) : bool :=
  match To4 ip with
  | Some ip4 => (at_ ip4 0 =? 169) && (at_ ip4 1 =? 254)
  | None =>
      Nat.eqb (List.length ip) IPv6len
      && (at_ ip 0 =? 254) && (Z.land (at_ ip 1) 192 =? 128)
  end.

Definition networkNumberAndMask (n : IPNet) : option (IP * list Z) :=
  let ip := match To4 (net_IP n) with Some ip4 => Some ip4
            | None => if Nat.eqb (List.length (net_IP n)) IPv6len
                      then Some (net_IP n) else None end in
  match ip with
  | None => None
  | Some ip =>
      let m := net_Mask n in
      if Nat.eqb (List.length m) IPv4len then
        if Nat.eqb (List.length ip) IPv4len then Some (ip, m) else None
      else if Nat.eqb (List.length m) IPv6len then
        if Nat.eqb (List.length ip) IPv4len then Some (ip, skipn 12 m)
        else Some (ip, m)
      else None
  end.

Fixpoint maskedEqual (nn m ip : list Z) : bool :=
  match nn, m, ip with
  | x :: nn', k :: m', y :: ip' =>
      (Z.land x k =? Z.land y k) && maskedEqual nn' m' ip'
  | _, _, _ => true
  end.

Definition Contains (n : IPNet) (ip : IP) : bool :=
  let '(nn, m) := match networkNumberAndMask n with
                  | Some p => p | None => ([], []) end in
  let ip := match To4 ip with Some x => x | None => ip end in
  if Nat.eqb (List.length ip) (List.length nn) then maskedEqual nn m ip
  else false.

(** *** Text *)

Fixpoint indexByte (s : string) (c : ascii) : option nat :=
  match s with
  | EmptyString => None
  | String x rest =>
      if Ascii.eqb x c then Some O
      else match indexByte rest c with
           | Some i => Some (S i)
           | None => None
           end
  end.

Fixpoint lastIndexByte (s : string) (c : ascii) : option nat :=
  match s with
  | EmptyString => None
  | String x rest =>
      match lastIndexByte rest c with
      | Some i => Some (S i)
      | None => if Ascii.eqb x c then Some O else None
      end
  end.

Definition contains (s : string) (c : ascii) : bool :=
  match indexByte s c with Some _ => true | None => false end.

(** [s[i:j]] and [s[i:]] *)
Definition slice (s : string) (i j : nat) : string := substring i (j - i) s.
Definition from (s : string) (i : nat) : string := skip i s.

Fixpoint splitOn (c : ascii) (s : string) : list string :=
  match s with
  | EmptyString => [EmptyString]
  | String x rest =>
      match splitOn c rest with
      | [] => [EmptyString]
      | h :: t =>
          if Ascii.eqb x c then EmptyString :: h :: t else String x h :: t
      end
  end.

Fixpoint join (sep : string) (l : list string) : string :=
  match l with
  | [] => EmptyString
  | [x] => x
  | x :: rest => (x ++ sep ++ join sep rest)%string
  end.

(** strconv.Itoa *)
Definition Itoa (z : Z) : string :=
  DecimalString.NilZero.string_of_int (Z.to_int z).

Definition hexDigit (d : Z) : ascii :=
  match get (Z.to_nat d) "0123456789abcdef" with
  | Some c => c
  | None => "?"%char
  end.

Fixpoint hexOf (fuel : nat) (n : Z) (acc : string) : string :=
  match fuel with
  | O => acc
  | S k =>
      let acc' := String (hexDigit (n mod 16)) acc in
      if n / 16 =? 0 then acc' else hexOf k (n / 16) acc'
  end.

Definition appendHex (n : Z) : string := hexOf 8 n EmptyString.

Fixpoint groups (bytes : list Z) : list Z :=
  match bytes with
  | hi :: lo :: rest => (hi * 256 + lo) :: groups rest
  | _ => []
  end.

Fixpoint zeroRun (gs : list Z) : nat :=
  match gs with
  | 0 :: rest => S (zeroRun rest)
  | _ => O
  end.

Fixpoint longestRun (gs : list Z) (i : nat) (best : nat * nat) : nat * nat :=
  match gs with
  | [] => best
  | _ :: rest =>
      let n := zeroRun gs in
      longestRun rest (S i) (if Nat.ltb (snd best) n then (i, n) else best)
  end.

(** [ip.String()] *)
Definition IPString (ip : IP) : string :=
  if Nat.eqb (List.length ip) 0 then "<nil>"
  else
    match To4 ip with
    | Some p4 => join "." (map Itoa p4)
    | None =>
        if negb (Nat.eqb (List.length ip) IPv6len)
        then ("?" ++ String.concat "" (map appendHex ip))%string
        else
          let gs := groups ip in
          let '(e0, n) := longestRun gs 0%nat (0%nat, 0%nat) in
          if Nat.leb n 1 then join ":" (map appendHex gs)
          else (join ":" (map appendHex (firstn e0 gs)) ++ "::"
                ++ join ":" (map appendHex (skipn (e0 + n) gs)))%string
    end.

Definition parseErr (what text : string) : error :=
  ErrNet ("invalid " ++ what ++ ": " ++ text).

Definition parseField4 (f : string) : option Z :=
  match dtoi f 0 with
  | (n, i, true) =>
      if Nat.eqb i (String.length f) && (n <=? 255)
         && negb (Nat.ltb 1 (String.length f)
                  && match f with String "0" _ => true | _ => false end)
      then Some n else None
  | _ => None
  end.

Fixpoint sequence {A} (l : list (option A)) : option (list A) :=
  match l with
  | [] => Some []
  | Some x :: rest =>
      match sequence rest with Some xs => Some (x :: xs) | None => None end
  | None :: _ => None
  end.

Definition parseIPv4 (s : string) : option (list Z) :=
  match sequence (map parseField4 (splitOn "." s)) with
  | Some l => if Nat.eqb (List.length l) 4 then Some l else None
  | None => None
  end.

Definition hexVal (c : ascii) : option Z :=
  let b := byte c in
  if (48 <=? b) && (b <=? 57) then Some (b - 48)
  else if (97 <=? b) && (b <=? 102) then Some (b - 87)
  else if (65 <=? b) && (b <=? 70) then Some (b - 55)
  else None.

Fixpoint hexNum (s : string) (acc : Z) : option Z :=
  match s with
  | EmptyString => Some acc
  | String c rest =>
      match hexVal c with
      | Some v => hexNum rest (acc * 16 + v)
      | None => None
      end
  end.

Definition parseGroup (f : string) : option Z :=
  if Nat.leb 1 (String.length f) && Nat.leb (String.length f) 4
  then hexNum f 0 else None.

Definition parseGroups (s : string) : option (list Z) :=
  if Nat.eqb (String.length s) 0 then Some []
  else sequence (map parseGroup (splitOn ":" s)).

Fixpoint indexEllipsis (s : string) : option nat :=
  match s with
  | String ":" (String ":" _) => Some O
  | String _ rest =>
      match indexEllipsis rest with Some i => Some (S i) | None => None end
  | EmptyString => None
  end.

Definition ungroup (gs : list Z) : list Z :=
  flat_map (fun g => [g / 256; g mod 256]) gs.

Definition parseIPv6 (s : string) : option (list Z) :=
  match indexEllipsis s with
  | Some i =>
      match parseGroups (slice s 0 i), parseGroups (from s (i + 2)) with
      | Some l, Some r =>
          if Nat.ltb (List.length l + List.length r) 8
          then Some (ungroup
                  (l ++ repeat 0 (8 - List.length l - List.length r) ++ r))
          else None
      | _, _ => None
      end
  | None =>
      match parseGroups s with
      | Some l =>
          if Nat.eqb (List.length l) 8 then Some (ungroup l) else None
      | None => None
      end
  end.

(** net.ParseIP *)
Definition ParseIP (s : string) : option IP :=
  if contains s ":" then parseIPv6 s
  else match parseIPv4 s with
       | Some l => Some (v4InV6Prefix ++ l)
       | None => None
       end.

Fixpoint CIDRMask (ones : Z) (nbytes : nat) : list Z :=
  match nbytes with
  | O => []
  | S k =>
      if ones >=? 8 then 255 :: CIDRMask (ones - 8) k
      else (255 - Z.shiftr 255 ones) :: CIDRMask 0 k
  end.

(** net.ParseCIDR, the network it returns *)
Definition ParseCIDR (s : string) : result IPNet :=
  match indexByte s "/" with
  | None => Err (parseErr "CIDR address" s)
  | Some i =>
      let addr := slice s 0 i in
      let mask := from s (i + 1) in
      match ParseIP addr with
      | None => Err (parseErr "CIDR address" s)
      | Some ip16 =>
          let ip := match To4 ip16 with
                    | Some ip4 => if contains addr ":" then ip16 else ip4
                    | None => ip16
                    end in
          let '(n, j, ok) := dtoi mask 0 in
          if negb ok || negb (Nat.eqb j (String.length mask))
             || (n <? 0) || (n >? 8 * Z.of_nat (List.length ip))
          then Err (parseErr "CIDR address" s)
          else
            let m := CIDRMask n (List.length ip) in
            Ok (mkIPNet (map (fun p => Z.land (fst p) (snd p)) (combine ip m))
                        m)
      end
  end.

Definition addrErr (addr why : string) : result (string * string) :=
  Err (AddrError why addr).

(** net.SplitHostPort *)
Definition SplitHostPort (hostport : string) : result (string * string) :=
  match lastIndexByte hostport ":" with
  | None => addrErr hostport "missing port in address"
  | Some i =>
      let bracketed :=
        match hostport with String "[" _ => true | _ => false end in
      let r :=
        if bracketed then
          match indexByte hostport "]" with
          | None => inr (addrErr hostport "missing ']' in address")
          | Some e =>
              if Nat.eqb (e + 1) (String.length hostport)
              then inr (addrErr hostport "missing port in address")
              else if Nat.eqb (e + 1) i
              then inl (slice hostport 1 e, 1%nat, (e + 1)%nat)
              else if match get (e + 1) hostport with
                      | Some ":"%char => true | _ => false end
              then inr (addrErr hostport "too many colons in address")
              else inr (addrErr hostport "missing port in address")
          end
        else
          let host := slice hostport 0 i in
          if contains host ":"
          then inr (addrErr hostport "too many colons in address")
          else inl (host, 0%nat, 0%nat) in
      match r with
      | inr e => e
      | inl (host, j, k) =>
          if contains (from hostport j) "["
          then addrErr hostport "unexpected '[' in address"
          else if contains (from hostport k) "]"
          then addrErr hostport "unexpected ']' in address"
          else Ok (host, from hostport (i + 1))
      end
  end.

(** net.JoinHostPort *)
Definition JoinHostPort (host port : string) : string :=
  if contains host ":" then ("[" ++ host ++ "]:" ++ port)%string
  else (host ++ ":" ++ port)%string.

End GoNet.

#[export] Instance goNet : NetLib := {|
  IP := GoNet.IP;
  IPNet := GoNet.IPNet;
  Conn := string;
  Addr := string;
  IsPrivate := GoNet.IsPrivate;
  IsLoopback := GoNet.IsLoopback;
  IsLinkLocalUnicast := GoNet.IsLinkLocalUnicast;
  IsLinkLocalMulticast := GoNet.IsLinkLocalMulticast;
  IsMulticast := GoNet.IsMulticast;
  IsInterfaceLocalMulticast := GoNet.IsInterfaceLocalMulticast;
  IsUnspecified := GoNet.IsUnspecified;
  Contains := GoNet.Contains;
  IPString := GoNet.IPString;
  ParseCIDR := GoNet.ParseCIDR;
  SplitHostPort := GoNet.SplitHostPort;
  JoinHostPort := GoNet.JoinHostPort;
  Itoa := GoNet.Itoa
|}.

(** ** Observations on call histories *)

Section Observations.
Context {N : NetLib}.

Definition isDial (ev : Event) : bool :=
  match ev with EvDial _ _ _ _ => true | _ => false end.

Definition isLookupIP (ev : Event) : bool :=
  match ev with EvLookupIP _ _ => true | _ => false end.

Definition isLookupPort (ev : Event) : bool :=
  match ev with EvLookupPort _ _ _ => true | _ => false end.

Definition isNow (ev : Event) : bool :=
  match ev with EvNow _ => true | _ => false end.

(** The connection attempts, the DNS lookups and the service lookups of a
    history, in order. *)
Definition dials (tr : Trace) : Trace := filter isDial tr.
Definition lookups (tr : Trace) : Trace := filter isLookupIP tr.
Definition portLookups (tr : Trace) : Trace := filter isLookupPort tr.

Definition isErr {T} (r : result T) : bool :=
  match r with Err _ => true | Ok _ => false end.

(** The address [dialSerial] dials for candidate [ip]. *)
Definition target (port : string) (ip : IP) : string :=
  JoinHostPort (IPString ip) port.

(** The attempts made with one net.Dialer on the addresses [addrs], paired
    with the answers [rs]. *)
Definition attempts (dialer : NetDialer) (network : string)
    (addrs : list string) (rs : list (result Conn)) : Trace :=
  map (fun p => EvDial dialer network (fst p) (snd p)) (combine addrs rs).

(** The address a connection attempt went to. *)
Definition dialled (ev : Event) : string :=
  match ev with
  | EvDial _ _ address _ => address
  | _ => EmptyString
  end.

(** The time budget as the specification words it: the effective deadline
    for timeout [T], absolute deadline [D] and clock reading [t1] ... *)
Definition effectiveDeadline (T : Duration) (D t1 : time.Time) : time.Time :=
  if T >? 0 then (if D =? 0 then t1 + T else Z.min (t1 + T) D) else D.

(** ... and the timeout of one attempt out of [n], for effective deadline
    [E] and clock reading [t2]. *)
Definition attemptTimeout (T : Duration) (E t2 : time.Time) (n : Z)
  : Duration :=
  if E =? 0 then T
  else if T =? 0 then Z.max (2 * Second) (Z.quot (time.Sub E t2) n)
  else Z.min T (Z.max (2 * Second) (Z.quot (time.Sub E t2) n)).

(** The clock readings [dialSerial] takes from history [tr0]. *)
Definition clockReads (W : World) (T : Duration) (D : time.Time)
    (tr0 : Trace) : Trace :=
  let pre1 := if T >? 0 then [EvNow (w_Now W tr0)] else [] in
  let E := effectiveDeadline T D (w_Now W tr0) in
  pre1 ++ (if E =? 0 then [] else [EvNow (w_Now W (tr0 ++ pre1))]).

(** The answers the outside gives when [addrs] are dialled in order with
    one net.Dialer, starting from history [tr] and stopping at the first
    success. *)
Fixpoint worldAnswers (W : World) (dialer : NetDialer) (network : string)
    (tr : Trace) (addrs : list string) : list (result Conn) :=
  match addrs with
  | [] => []
  | a :: rest =>
      let r := w_Dial W tr dialer network a in
      r :: match r with
           | Ok _ => []
           | Err _ =>
               worldAnswers W dialer network
                 (tr ++ [EvDial dialer network a r]) rest
           end
  end.

End Observations.

(** ** A simulated outside world over the reference instance *)
Module Sim.

Definition clock0 : time.Time := 63800000000 * Second.

(** The clock advances one millisecond per call that left the process. *)
Definition Now (tr : @Trace goNet) : time.Time :=
  clock0 + Z.of_nat (List.length tr) * 1000000.

Definition LookupPort (tr : @Trace goNet) (network service : string)
  : result Z :=
  if String.eqb service "http" then Ok 80
  else if String.eqb service "https" then Ok 443
  else if String.eqb service "smtp" then Ok 25
  else Err (ErrNet ("lookup " ++ network ++ "/" ++ service
                    ++ ": unknown port")).

(** Two hosts whose addresses the policy allows: one with nothing
    listening, one whose second address accepts connections. *)
Definition downIPs : list GoNet.IP :=
  [GoNet.IPv4 203 0 114 1; GoNet.IPv4 203 0 114 2].

Definition mixedIPs : list GoNet.IP :=
  [GoNet.IPv4 203 0 114 1; GoNet.IPv4 93 184 216 34; GoNet.IPv4 203 0 114 2].

(** Names this resolver knows.  It accepts the inet_aton spellings of
    127.0.0.1 (hexadecimal, 32-bit decimal, octal segments). *)
Definition hosts : list (string * list GoNet.IP) :=
  [ ("localhost", [GoNet.IPv6loopback; GoNet.IPv4 127 0 0 1]);
    ("example.org", [GoNet.IPv4 93 184 216 34]);
    ("0x7f000001", [GoNet.IPv4 127 0 0 1]);
    ("2130706433", [GoNet.IPv4 127 0 0 1]);
    ("0177.0.0.1", [GoNet.IPv4 127 0 0 1]);
    ("rebind.example", [GoNet.IPv4 93 184 216 34; GoNet.IPv4 10 0 0 5]);
    ("inside.example", [GoNet.IPv4 10 0 0 5; GoNet.IPv4 192 168 1 1]);
    ("down.example", downIPs);
    ("mixed.example", mixedIPs);
    ("empty.example", []) ].

Fixpoint assoc {A} (k : string) (l : list (string * A)) : option A :=
  match l with
  | [] => None
  | (k', v) :: rest => if String.eqb k k' then Some v else assoc k rest
  end.

Definition LookupIP (tr : @Trace goNet) (host : string)
  : result (list GoNet.IP) :=
  match GoNet.ParseIP host with
  | Some ip => Ok [ip]
  | None =>
      match assoc host hosts with
      | Some ips => Ok ips
      | None => Err (ErrNet ("lookup " ++ host ++ ": no such host"))
      end
  end.

(** net.Dialer.Dial: refuses at once when its deadline has passed; only
    93.184.216.34:80 accepts connections. *)
Definition Dial (tr : @Trace goNet) (dialer : @NetDialer goNet)
    (network address : string) : result string :=
  if negb (time.IsZero (nd_Deadline dialer))
     && (nd_Deadline dialer <=? Now tr)
  then Err (ErrNet ("dial " ++ network ++ " " ++ address ++ ": i/o timeout"))
  else if String.eqb address "93.184.216.34:80" then Ok address
  else Err (ErrNet ("dial " ++ network ++ " " ++ address
                    ++ ": connect: connection refused")).

Definition world : @World goNet := mkWorld LookupPort LookupIP Now Dial.

(** The value of [DefaultDialer] once package initialisation has run. *)
Definition defaultDialer : @Dialer goNet :=
  match @DefaultDialer goNet with
  | Returns d => d
  | Panics _ => mkDialer [] [] [] false false false false 0 0 0 None
  end.

Definition withBudget (d : @Dialer goNet) (timeout : Duration)
    (deadline : time.Time) : @Dialer goNet :=
  mkDialer (AllowedNets d) (AllowedPorts d) (BlockedRanges d)
    (BlockPrivate d) (BlockLinkLocal d) (BlockMulticast d)
    (BlockUnspecified d) timeout deadline (KeepAlive d) (LocalAddr d).

End Sim.

(** ** Decimal port text and the package-level [Dial] *)

(** The text is made of the bytes '0'..'9' only. *)
Fixpoint allDigits (s : string) : bool :=
  match s with
  | EmptyString => true
  | String c rest => isDigit c && allDigits rest
  end.

(** The number a run of decimal digits denotes, continuing from [acc]. *)
Fixpoint decimal (acc : Z) (s : string) : Z :=
  match s with
  | EmptyString => acc
  | String c rest => decimal (acc * 10 + (byte c - 48)) rest
  end.

(** The text is empty or starts with a byte that is not a digit. *)
Definition stopsDigits (rest : string) : Prop :=
  match rest with
  | EmptyString => True
  | String c _ => isDigit c = false
  end.

Section PackageLevel.
Context {N : NetLib} (W : World).


End PackageLevel.

(** * Proofs *)

Unset Implicit Arguments.

(** ** Integer conversion *)

Lemma int16_low (p : Z) : 0 <= p <= 32767 -> int16 p = p.
Proof.
  intros Hp. unfold int16. rewrite Z.mod_small by lia. lia.
Qed.

Lemma int16_high (p : Z) : 32767 < p <= 65535 -> int16 p = p - 65536.
Proof.
  intros Hp. unfold int16.
  replace (p + 32768) with ((p - 32768) + 1 * 65536) by lia.
  rewrite Z.mod_add by lia. rewrite Z.mod_small by lia. lia.
Qed.

Lemma int16_range (p : Z) : -32768 <= int16 p <= 32767.
Proof.
  unfold int16. pose proof (Z.mod_pos_bound (p + 32768) 65536). lia.
Qed.


(** ** The monad and the call history *)

Section Basics.
Context {N : NetLib} (W : World).

Lemma filter_snoc_false (f : Event -> bool) (tr : Trace) (ev : Event) :
  f ev = false -> filter f (tr ++ [ev]) = filter f tr.
Proof.
  intros H. rewrite filter_app. simpl. rewrite H. apply app_nil_r.
Qed.

Lemma filter_snoc_true (f : Event -> bool) (tr : Trace) (ev : Event) :
  f ev = true -> filter f (tr ++ [ev]) = filter f tr ++ [ev].
Proof.
  intros H. rewrite filter_app. simpl. now rewrite H.
Qed.

Lemma find_first {A} (f : A -> bool) (l : list A) (x : A) :
  find f l = Some x ->
  exists pre post,
    l = pre ++ x :: post /\ f x = true /\ Forall (fun y => f y = false) pre.
Proof.
  induction l as [|a l IH]; simpl; [discriminate|].
  destruct (f a) eqn:Ha.
  - intros [= ->]. exists [], l. auto.
  - intros H. destruct (IH H) as (pre & post & -> & Hx & Hpre).
    exists (a :: pre), post. auto.
Qed.

Lemma find_exists {A} (f : A -> bool) (l : list A) (x : A) :
  In x l -> f x = true -> exists y, find f l = Some y.
Proof.
  induction l as [|a l IH]; simpl; [tauto|].
  intros [->|Hin] Hx.
  - rewrite Hx. eauto.
  - destruct (f a); eauto.
Qed.

Lemma allowedNet_In (d : Dialer) (network : string) :
  allowedNet d network = true <-> In network (AllowedNets d).
Proof.
  unfold allowedNet. rewrite existsb_exists. split.
  - intros (x & Hin & Heq). apply String.eqb_eq in Heq. now subst.
  - intros Hin. exists network. split; [assumption|apply String.eqb_refl].
Qed.

Lemma allowedPort_In (d : Dialer) (port : Z) :
  allowedPort d port = true <-> In port (AllowedPorts d).
Proof.
  unfold allowedPort. rewrite existsb_exists. split.
  - intros (x & Hin & Heq). apply Z.eqb_eq in Heq. now subst.
  - intros Hin. exists port. split; [assumption|apply Z.eqb_refl].
Qed.

(** [parsePort] never panics; it makes at most one call, a service lookup;
    a port it returns is in [0, 65535]. *)
Lemma parsePort_spec (network port : string) (tr : Trace) :
  exists r tr',
    parsePort W network port tr = (Returns r, tr')
    /\ (tr' = tr \/ exists x, tr' = tr ++ [EvLookupPort network port x])
    /\ (forall p, r = Ok p -> 0 <= p <= 65535).
Proof.
  unfold parsePort. destruct (dtoi port 0) as [[p i] ok].
  assert (Hrange : forall (q : Z) (t : Trace),
    exists r,
      (if (q <? 0) || (q >? 65535)
       then ret (Err (AddrError "invalid port" port))
       else ret (Ok q)) t = (Returns r, t)
      /\ (forall p0, r = Ok p0 -> 0 <= p0 <= 65535)).
  { intros q t. destruct ((q <? 0) || (q >? 65535)) eqn:E.
    - eexists. split; [reflexivity|]. discriminate.
    - eexists. split; [reflexivity|]. intros p0 [= <-].
      apply orb_false_iff in E. lia. }
  unfold bind.
  destruct (negb ok || negb (Nat.eqb i (String.length port))).
  - unfold net_LookupPort, emit. cbn.
    destruct (w_LookupPort W tr network port) as [q|err] eqn:E.
    + destruct (Hrange q (tr ++ [EvLookupPort network port (Ok q)]))
        as (r & Hr & Hp).
      exists r, (tr ++ [EvLookupPort network port (Ok q)]).
      rewrite Hr. split; [reflexivity|]. split; [right; eauto|exact Hp].
    + exists (Err err), (tr ++ [EvLookupPort network port (Err err)]).
      split; [reflexivity|]. split; [right; eauto|discriminate].
  - cbn. destruct (Hrange p tr) as (r & Hr & Hp).
    exists r, tr. rewrite Hr. auto.
Qed.

Lemma parsePort_extends (network port : string) (tr tr' : Trace)
    (r : run (result Z)) :
  parsePort W network port tr = (r, tr') ->
  (exists v, r = Returns v)
  /\ (tr' = tr \/ exists x, tr' = tr ++ [EvLookupPort network port x])
  /\ dials tr' = dials tr /\ lookups tr' = lookups tr.
Proof.
  intros H. destruct (parsePort_spec network port tr) as (v & t & E & Ht & _).
  rewrite E in H. injection H as <- <-.
  split; [eauto|]. split; [exact Ht|].
  destruct Ht as [->|[x ->]]; [auto|].
  unfold dials, lookups. now rewrite !filter_snoc_false.
Qed.

Lemma parsePort_range (network port : string) (tr tr' : Trace) (p : Z) :
  parsePort W network port tr = (Returns (Ok p), tr') -> 0 <= p <= 65535.
Proof.
  intros H. destruct (parsePort_spec network port tr) as (v & t & E & _ & Hp).
  rewrite E in H. injection H as -> _. now apply Hp.
Qed.

(** [Dial] once the transport, the address syntax and the port have
    passed and the host has resolved. *)
Lemma Dial_resolved (d : Dialer) (network addr host port : string)
    (portnum : Z) (ips : list IP) (tr0 tr1 : Trace) :
  allowedNet d network = true ->
  SplitHostPort addr = Ok (host, port) ->
  parsePort W network port tr0 = (Returns (Ok portnum), tr1) ->
  allowedPort d (int16 portnum) = true ->
  w_LookupIP W tr1 host = Ok ips ->
  Dial W d network addr tr0 =
    match find (fun ip => negb (allowedIP d ip)) ips with
    | Some ip =>
        (Returns (Err (ErrBlockedRange addr (IPString ip))),
         tr1 ++ [EvLookupIP host (Ok ips)])
    | None =>
        dialSerial W d network addr ips (Itoa portnum)
          (tr1 ++ [EvLookupIP host (Ok ips)])
    end.
Proof.
  intros Hnet Hsplit Hport Hallowed Hips.
  unfold Dial. rewrite Hnet, Hsplit. cbn [negb]. unfold bind at 1.
  rewrite Hport, Hallowed. cbn [negb].
  unfold bind at 1, net_LookupIP, emit. cbn zeta. rewrite Hips.
  destruct (find _ ips); reflexivity.
Qed.

End Basics.

(** ** The serial connector *)

Section Serial.
Context {N : NetLib} (W : World).

Lemma attempts_cons (dialer : NetDialer) (network a : string)
    (addrs : list string) (r : result Conn) (rs : list (result Conn)) :
  attempts dialer network (a :: addrs) (r :: rs)
  = EvDial dialer network a r :: attempts dialer network addrs rs.
Proof. reflexivity. Qed.

Lemma attempts_dials (dialer : NetDialer) (network : string)
    (addrs : list string) (rs : list (result Conn)) :
  dials (attempts dialer network addrs rs) = attempts dialer network addrs rs.
Proof.
  unfold dials, attempts.
  induction (combine addrs rs) as [|p l IH]; simpl; [reflexivity|].
  now rewrite IH.
Qed.

Lemma dialEach_cons (dialer : NetDialer) (network port : string) (ip : IP)
    (ips : list IP) (firstErr : option error) (tr : Trace) :
  dialEach W dialer network port (ip :: ips) firstErr tr
  = match w_Dial W tr dialer network (target port ip) with
    | Ok conn =>
        (Returns (inl conn),
         tr ++ [EvDial dialer network (target port ip) (Ok conn)])
    | Err err =>
        dialEach W dialer network port ips
          (match firstErr with None => Some err | Some _ => firstErr end)
          (tr ++ [EvDial dialer network (target port ip) (Err err)])
    end.
Proof.
  cbn [dialEach]. unfold bind, net_Dialer_Dial, emit, target. cbn zeta.
  destruct (w_Dial W tr dialer network _); reflexivity.
Qed.

(** The loop: it dials the candidates in order, stops at the first
    success, and otherwise keeps the first error. *)
Lemma dialEach_spec (dialer : NetDialer) (network port : string)
    (ips : list IP) :
  forall (firstErr : option error) (tr : Trace),
    let addrs := map (target port) ips in
    let rs := worldAnswers W dialer network tr addrs in
    exists errs,
      (exists c,
          rs = map Err errs ++ [Ok c]
          /\ (List.length rs <= List.length ips)%nat
          /\ dialEach W dialer network port ips firstErr tr
             = (Returns (inl c), tr ++ attempts dialer network addrs rs))
      \/ (rs = map Err errs
          /\ List.length errs = List.length ips
          /\ dialEach W dialer network port ips firstErr tr
             = (Returns (inr (match firstErr with
                              | Some e => Some e
                              | None => hd_error errs
                              end)),
                tr ++ attempts dialer network addrs rs)).
Proof.
  induction ips as [|ip ips IH]; intros firstErr tr; cbn zeta.
  - exists []. right. cbn. rewrite app_nil_r.
    destruct firstErr; auto.
  - rewrite !dialEach_cons. cbn [map worldAnswers].
    destruct (w_Dial W tr dialer network (target port ip)) as [c|e] eqn:E.
    + exists []. left. exists c. cbn. split; [reflexivity|].
      split; [lia|]. now rewrite combine_nil.
    + specialize (IH (match firstErr with
                      | None => Some e | Some _ => firstErr end)
                     (tr ++ [EvDial dialer network (target port ip) (Err e)])).
      cbn zeta in IH. destruct IH as (errs & [(c & Hrs & Hlen & Hrun)|(Hrs & Hlen & Hrun)]).
      * exists (e :: errs). left. exists c. rewrite Hrs at 1 2.
        split; [reflexivity|]. split; [cbn; rewrite <- Hrs; lia|].
        rewrite Hrun, attempts_cons, <- app_assoc. reflexivity.
      * exists (e :: errs). right. rewrite Hrs at 1.
        split; [reflexivity|]. split; [cbn; lia|].
        rewrite Hrun, attempts_cons, <- app_assoc. cbn [app].
        destruct firstErr; reflexivity.
Qed.

Lemma bind_returns {A B} (m : M A) (f : A -> M B) (tr tr' : Trace) (a : A) :
  m tr = (Returns a, tr') -> bind m f tr = f a tr'.
Proof. intros H. unfold bind. now rewrite H. Qed.

Lemma bind_panics {A B} (m : M A) (f : A -> M B) (tr tr' : Trace)
    (msg : string) :
  m tr = (Panics msg, tr') -> bind m f tr = (Panics msg, tr').
Proof. intros H. unfold bind. now rewrite H. Qed.

Lemma ensureDeadline_spec (d : Dialer) (tr : Trace) :
  let T := Timeout d in
  let D := Deadline d in
  let t1 := w_Now W tr in
  ensureDeadline W d (mkNetDialer T D (KeepAlive d) (LocalAddr d)) tr
  = (Returns (mkNetDialer T
                (if T >? 0
                 then (if D =? 0 then t1 + T else Z.min (t1 + T) D)
                 else D)
                (KeepAlive d) (LocalAddr d)),
     tr ++ (if T >? 0 then [EvNow t1] else [])).
Proof.
  cbn zeta. unfold ensureDeadline, time.IsZero, time.Before, time.Add.
  cbn [nd_Timeout nd_Deadline].
  destruct (Timeout d >? 0).
  - unfold bind, time_Now, emit, ret, set_Deadline. cbn zeta.
    cbn [nd_Timeout nd_Deadline nd_KeepAlive nd_LocalAddr].
    destruct (Deadline d =? 0); cbn [orb]; [reflexivity|].
    destruct (w_Now W tr + Timeout d <? Deadline d) eqn:E;
      do 3 f_equal; lia.
  - unfold ret. now rewrite app_nil_r.
Qed.

Lemma divideTimeout_spec (dialer : NetDialer) (n : Z) (tr : Trace) :
  n <> 0 ->
  let T := nd_Timeout dialer in
  let E := nd_Deadline dialer in
  let t2 := w_Now W tr in
  let share := Z.max (2 * Second) (Z.quot (time.Sub E t2) n) in
  divideTimeout W dialer n tr
  = (Returns (mkNetDialer
                (if E =? 0 then T
                 else if T =? 0 then share else Z.min T share)
                E (nd_KeepAlive dialer) (nd_LocalAddr dialer)),
     tr ++ (if E =? 0 then [] else [EvNow t2])).
Proof.
  intros Hn. cbn zeta. unfold divideTimeout, time.IsZero.
  destruct dialer as [T E K L]. cbn [nd_Timeout nd_Deadline nd_KeepAlive
                                     nd_LocalAddr].
  destruct (E =? 0); cbn [negb].
  - unfold ret. now rewrite app_nil_r.
  - unfold bind, time_Now, emit, go_div. cbn zeta.
    replace (n =? 0) with false by lia.
    unfold ret, set_Timeout.
    cbn [nd_Timeout nd_Deadline nd_KeepAlive nd_LocalAddr].
    set (q := Z.quot _ n).
    destruct (T =? 0); cbn [orb];
      [destruct (q <? 2 * Second) eqn:Eq; do 3 f_equal; lia|].
    destruct (q <? 2 * Second) eqn:Eq;
      match goal with
      | |- context [?a <? T] => destruct (a <? T) eqn:Es
      end; do 3 f_equal; lia.
Qed.

(** With no candidate the division panics as soon as a deadline exists. *)
Lemma divideTimeout_zero (dialer : NetDialer) (tr : Trace) :
  nd_Deadline dialer <> 0 ->
  divideTimeout W dialer 0 tr
  = (Panics "runtime error: integer divide by zero",
     tr ++ [EvNow (w_Now W tr)]).
Proof.
  intros HE. unfold divideTimeout, time.IsZero.
  replace (nd_Deadline dialer =? 0) with false by lia.
  reflexivity.
Qed.

Lemma divideTimeout_none (dialer : NetDialer) (n : Z) (tr : Trace) :
  nd_Deadline dialer = 0 ->
  divideTimeout W dialer n tr = (Returns dialer, tr).
Proof.
  intros HE. unfold divideTimeout, time.IsZero. now rewrite HE.
Qed.

(** The net.Dialer that [dialSerial] builds for [n >= 1] candidates. *)
Lemma serialDialer_budget (d : Dialer) (n : Z) (tr0 : Trace) :
  0 < n ->
  let t1 := w_Now W tr0 in
  let E := effectiveDeadline (Timeout d) (Deadline d) t1 in
  let t2 := w_Now W (tr0 ++ (if Timeout d >? 0 then [EvNow t1] else [])) in
  serialDialer W d n tr0
  = (Returns (mkNetDialer (attemptTimeout (Timeout d) E t2 n) E
                          (KeepAlive d) (LocalAddr d)),
     tr0 ++ clockReads W (Timeout d) (Deadline d) tr0).
Proof.
  intros Hn. cbn zeta. unfold serialDialer.
  rewrite (bind_returns _ _ _ _ _ (ensureDeadline_spec d tr0)).
  rewrite divideTimeout_spec by lia.
  cbn [nd_Timeout nd_Deadline nd_KeepAlive nd_LocalAddr].
  unfold clockReads, attemptTimeout, effectiveDeadline.
  now rewrite app_assoc.
Qed.

Lemma clockReads_dials (T : Duration) (D : time.Time) (tr0 : Trace) :
  dials (clockReads W T D tr0) = [] /\ lookups (clockReads W T D tr0) = []
  /\ Forall (fun ev => isNow ev = true) (clockReads W T D tr0).
Proof.
  unfold clockReads. cbn zeta.
  destruct (T >? 0); destruct (effectiveDeadline T D _ =? 0); cbn;
    repeat split; repeat constructor.
Qed.

Lemma attempts_dialled (dialer : NetDialer) (network : string)
    (addrs : list string) (rs : list (result Conn)) :
  (List.length rs <= List.length addrs)%nat ->
  map dialled (attempts dialer network addrs rs)
  = firstn (List.length rs) addrs.
Proof.
  unfold attempts. revert rs.
  induction addrs as [|a addrs IH]; intros [|r rs] Hlen; cbn in *;
    try reflexivity; try lia.
  f_equal. apply IH. lia.
Qed.

(** [dialSerial] on at least one candidate: the clock is read, then the
    candidates are dialled in order with one net.Dialer until one
    connects; the error of the first candidate is returned when none does. *)
Lemma dialSerial_spec (d : Dialer) (network addr : string) (ips : list IP)
    (port : string) (tr0 : Trace) :
  ips <> [] ->
  let n := Z.of_nat (List.length ips) in
  let t1 := w_Now W tr0 in
  let E := effectiveDeadline (Timeout d) (Deadline d) t1 in
  let t2 := w_Now W (tr0 ++ (if Timeout d >? 0 then [EvNow t1] else [])) in
  let dialer := mkNetDialer (attemptTimeout (Timeout d) E t2 n) E
                            (KeepAlive d) (LocalAddr d) in
  let tr1 := tr0 ++ clockReads W (Timeout d) (Deadline d) tr0 in
  let addrs := map (target port) ips in
  let rs := worldAnswers W dialer network tr1 addrs in
  snd (dialSerial W d network addr ips port tr0)
  = tr1 ++ attempts dialer network addrs rs
  /\ ((exists errs c,
          rs = map Err errs ++ [Ok c]
          /\ (List.length rs <= List.length ips)%nat
          /\ fst (dialSerial W d network addr ips port tr0) = Returns (Ok c))
      \/ (exists e errs,
          rs = map Err (e :: errs)
          /\ List.length rs = List.length ips
          /\ fst (dialSerial W d network addr ips port tr0)
             = Returns (Err e))).
Proof.
  intros Hne. cbn zeta. unfold dialSerial.
  assert (Hn : 0 < Z.of_nat (List.length ips))
    by (destruct ips; [congruence|cbn; lia]).
  rewrite (bind_returns _ _ _ _ _ (serialDialer_budget d _ tr0 Hn)).
  match goal with
  | |- context [bind (dialEach W ?dl network port ips None) _ ?t] =>
      destruct (dialEach_spec dl network port ips None t)
        as (errs & [(c & Hrs & Hlen & Hrun)|(Hrs & Hlen & Hrun)])
  end.
  - rewrite (bind_returns _ _ _ _ _ Hrun). cbn [ret fst snd].
    split; [reflexivity|]. left. exists errs, c. auto.
  - rewrite (bind_returns _ _ _ _ _ Hrun). cbn [ret fst snd].
    split; [reflexivity|]. right.
    destruct errs as [|e errs]; [destruct ips; [congruence|discriminate]|].
    exists e, errs. rewrite Hrs. rewrite length_map. auto.
Qed.

Lemma serialDialer_zero (d : Dialer) (tr0 : Trace) :
  let E := effectiveDeadline (Timeout d) (Deadline d) (w_Now W tr0) in
  serialDialer W d 0 tr0
  = (if E =? 0
     then Returns (mkNetDialer (Timeout d) E (KeepAlive d) (LocalAddr d))
     else Panics "runtime error: integer divide by zero",
     tr0 ++ clockReads W (Timeout d) (Deadline d) tr0).
Proof.
  cbn zeta. unfold serialDialer.
  rewrite (bind_returns _ _ _ _ _ (ensureDeadline_spec d tr0)).
  unfold clockReads. cbn zeta.
  fold (effectiveDeadline (Timeout d) (Deadline d) (w_Now W tr0)).
  destruct (effectiveDeadline (Timeout d) (Deadline d) (w_Now W tr0) =? 0)
    eqn:HE.
  - rewrite divideTimeout_none by (cbn; lia). now rewrite app_nil_r.
  - rewrite divideTimeout_zero by (cbn; lia). now rewrite app_assoc.
Qed.

(** [dialSerial] without candidates. *)
Lemma dialSerial_empty (d : Dialer) (network addr port : string)
    (tr0 : Trace) :
  let E := effectiveDeadline (Timeout d) (Deadline d) (w_Now W tr0) in
  dialSerial W d network addr [] port tr0
  = (if E =? 0
     then Returns (Err (ErrNoAddresses addr))
     else Panics "runtime error: integer divide by zero",
     tr0 ++ clockReads W (Timeout d) (Deadline d) tr0).
Proof.
  cbn zeta. unfold dialSerial. cbn [List.length Z.of_nat].
  pose proof (serialDialer_zero d tr0) as H. cbn zeta in H.
  destruct (effectiveDeadline (Timeout d) (Deadline d) (w_Now W tr0) =? 0).
  - rewrite (bind_returns _ _ _ _ _ H). reflexivity.
  - rewrite (bind_panics _ _ _ _ _ H). reflexivity.
Qed.

End Serial.

(** ** Address policy *)

Section Policy.
Context {N : NetLib}.

(** C3. [allowedIP] returns false exactly when one of these holds:
    BlockPrivate is set and the address is private-use or loopback;
    BlockLinkLocal is set and it is link-local unicast or link-local
    multicast; BlockMulticast is set and it is multicast or interface-local
    multicast; BlockUnspecified is set and it is the unspecified address;
    or some entry of BlockedRanges contains it.  Otherwise it returns
    true. *)
Theorem allowedIP_false_iff (d : Dialer) (ip : IP) :
  let blocked :=
    (BlockPrivate d = true /\ (IsPrivate ip = true \/ IsLoopback ip = true))
    \/ (BlockLinkLocal d = true
        /\ (IsLinkLocalUnicast ip = true \/ IsLinkLocalMulticast ip = true))
    \/ (BlockMulticast d = true
        /\ (IsMulticast ip = true \/ IsInterfaceLocalMulticast ip = true))
    \/ (BlockUnspecified d = true /\ IsUnspecified ip = true)
    \/ (exists netrange,
           In netrange (BlockedRanges d) /\ Contains netrange ip = true) in
  (allowedIP d ip = false <-> blocked)
  /\ (allowedIP d ip = true <-> ~ blocked).
Proof.
  cbn zeta.
  assert (H : allowedIP d ip = false <->
    (BlockPrivate d = true /\ (IsPrivate ip = true \/ IsLoopback ip = true))
    \/ (BlockLinkLocal d = true
        /\ (IsLinkLocalUnicast ip = true \/ IsLinkLocalMulticast ip = true))
    \/ (BlockMulticast d = true
        /\ (IsMulticast ip = true \/ IsInterfaceLocalMulticast ip = true))
    \/ (BlockUnspecified d = true /\ IsUnspecified ip = true)
    \/ (exists netrange,
           In netrange (BlockedRanges d) /\ Contains netrange ip = true)).
  { unfold allowedIP.
    rewrite <- (existsb_exists (fun netrange => Contains netrange ip)).
    destruct (BlockPrivate d && (IsPrivate ip || IsLoopback ip)) eqn:E1.
    { apply andb_true_iff in E1. rewrite orb_true_iff in E1. tauto. }
    destruct (BlockLinkLocal d
              && (IsLinkLocalUnicast ip || IsLinkLocalMulticast ip)) eqn:E2.
    { apply andb_true_iff in E2. rewrite orb_true_iff in E2. tauto. }
    destruct (BlockMulticast d
              && (IsMulticast ip || IsInterfaceLocalMulticast ip)) eqn:E3.
    { apply andb_true_iff in E3. rewrite orb_true_iff in E3. tauto. }
    destruct (BlockUnspecified d && IsUnspecified ip) eqn:E4.
    { apply andb_true_iff in E4. tauto. }
    apply andb_false_iff in E1, E2, E3, E4.
    rewrite orb_false_iff in E1, E2, E3.
    rewrite negb_false_iff. split; [tauto|].
    intros [[H1 H2]|[[H1 H2]|[[H1 H2]|[[H1 H2]|H]]]]; try exact H;
      exfalso; intuition congruence. }
  split; [exact H|].
  rewrite <- H. destruct (allowedIP d ip); split; congruence.
Qed.

Lemma cidrRanges_parsed (strs : list string) (nets : list IPNet) :
  cidrRanges strs = Returns nets ->
  Forall2 (fun str net => ParseCIDR str = Ok net) strs nets.
Proof.
  revert nets. induction strs as [|str strs IH]; cbn; intros nets H.
  - injection H as <-. constructor.
  - unfold cidrRange in H. destruct (ParseCIDR str) as [net|err] eqn:E;
      [|discriminate].
    destruct (cidrRanges strs) as [nets'|msg]; [|discriminate].
    injection H as <-. constructor; auto.
Qed.

(** C4. Once package initialisation has run, the default policy is:
    transports {tcp}; ports {80, 443, 8080, 8443}; the networks parsed from
    the sixteen IPv4 and the twelve IPv6 CIDR literals below, in this
    order, 169.254.0.0/16 among them; and the four classification flags
    set. *)
Theorem DefaultDialer_policy (d : Dialer) :
  DefaultDialer = Returns d ->
  let ipv4 :=
    [ "0.0.0.0/8"; "10.0.0.0/8"; "100.64.0.0/10"; "127.0.0.0/8";
      "169.254.0.0/16"; "172.16.0.0/12"; "192.0.0.0/24"; "192.0.2.0/24";
      "192.88.99.0/24"; "192.168.0.0/16"; "198.18.0.0/15";
      "198.51.100.0/24"; "203.0.113.0/24"; "224.0.0.0/4"; "240.0.0.0/4";
      "255.255.255.255/32" ] in
  let ipv6 :=
    [ "::/128"; "::1/128"; "100::/64"; "64:ff9b::/96"; "2001::/32";
      "2001:10::/28"; "2001:20::/28"; "2001:db8::/32"; "2002::/16";
      "fc00::/7"; "fe80::/10"; "ff00::/8" ] in
  AllowedNets d = ["tcp"]
  /\ AllowedPorts d = [80; 443; 8080; 8443]
  /\ Forall2 (fun str net => ParseCIDR str = Ok net)
             (ipv4 ++ ipv6) (BlockedRanges d)
  /\ List.length ipv4 = 16%nat /\ List.length ipv6 = 12%nat
  /\ List.length (BlockedRanges d) = 28%nat
  /\ BlockPrivate d = true /\ BlockLinkLocal d = true
  /\ BlockMulticast d = true /\ BlockUnspecified d = true.
Proof.
  unfold DefaultDialer. intros H.
  destruct (cidrRanges DefaultRanges) as [nets|msg] eqn:E; [|discriminate].
  injection H as <-. cbn zeta. cbn [AllowedNets AllowedPorts BlockedRanges
    BlockPrivate BlockLinkLocal BlockMulticast BlockUnspecified].
  pose proof (cidrRanges_parsed _ _ E) as HF.
  repeat split; try reflexivity; try exact HF.
  apply Forall2_length in HF. rewrite <- HF. reflexivity.
Qed.

End Policy.

(** The policy on concrete addresses, with the reference instance. *)

Lemma DefaultDialer_initialised :
  @DefaultDialer goNet = Returns Sim.defaultDialer.
Proof. reflexivity. Qed.

Lemma DefaultDialer_policy_witness :
  @DefaultDialer goNet = Returns Sim.defaultDialer
  /\ AllowedPorts Sim.defaultDialer = [80; 443; 8080; 8443].
Proof.
  assert (H : @DefaultDialer goNet = Returns Sim.defaultDialer)
    by reflexivity.
  split; [exact H|].
  exact (proj1 (proj2 (DefaultDialer_policy Sim.defaultDialer H))).
Defined.

Example default_blocks_and_allows :
  map (allowedIP Sim.defaultDialer)
      [ GoNet.IPv4 127 0 0 1; GoNet.IPv4 169 254 169 254;
        GoNet.IPv4 10 1 1 2; GoNet.IPv6loopback; GoNet.IPv4 93 184 216 34 ]
  = [false; false; false; false; true].
Proof. reflexivity. Qed.

(** The earlier revision differs from the current table in one entry, and
    with its table alone 169.254.169.254 is not refused. *)
Remark legacy_table_differs :
  Proxydialer.DefaultRanges <> DefaultRanges
  /\ match @cidrRanges goNet Proxydialer.DefaultRanges with
     | Returns nets =>
         Proxydialer.allowedIP nets (GoNet.IPv4 169 254 169 254)
     | Panics _ => false
     end = true
  /\ allowedIP Sim.defaultDialer (GoNet.IPv4 169 254 169 254) = false.
Proof.
  split; [discriminate|]. split; reflexivity.
Qed.

(** ** The order of the checks in [Dial] *)

Section DialOrder.
Context {N : NetLib} (W : World).

Lemma Dial_invalid_net (d : Dialer) (network addr : string) (tr0 : Trace) :
  allowedNet d network = false ->
  Dial W d network addr tr0 = (Returns (Err (ErrInvalidNet network addr)), tr0).
Proof. intros H. unfold Dial. rewrite H. reflexivity. Qed.

Lemma Dial_bad_address (d : Dialer) (network addr : string) (err : error)
    (tr0 : Trace) :
  allowedNet d network = true ->
  SplitHostPort addr = Err err ->
  Dial W d network addr tr0 = (Returns (Err err), tr0).
Proof. intros H1 H2. unfold Dial. rewrite H1, H2. reflexivity. Qed.

Lemma Dial_bad_port (d : Dialer) (network addr host port : string)
    (err : error) (tr0 tr1 : Trace) :
  allowedNet d network = true ->
  SplitHostPort addr = Ok (host, port) ->
  parsePort W network port tr0 = (Returns (Err err), tr1) ->
  Dial W d network addr tr0 = (Returns (Err err), tr1).
Proof.
  intros H1 H2 H3. unfold Dial. rewrite H1, H2. cbn [negb].
  rewrite (bind_returns _ _ _ _ _ H3). reflexivity.
Qed.

Lemma Dial_blocked_port (d : Dialer) (network addr host port : string)
    (portnum : Z) (tr0 tr1 : Trace) :
  allowedNet d network = true ->
  SplitHostPort addr = Ok (host, port) ->
  parsePort W network port tr0 = (Returns (Ok portnum), tr1) ->
  allowedPort d (int16 portnum) = false ->
  Dial W d network addr tr0 = (Returns (Err (ErrBlockedPort addr)), tr1).
Proof.
  intros H1 H2 H3 H4. unfold Dial. rewrite H1, H2. cbn [negb].
  rewrite (bind_returns _ _ _ _ _ H3). rewrite H4. reflexivity.
Qed.

Lemma Dial_unresolved (d : Dialer) (network addr host port : string)
    (portnum : Z) (err : error) (tr0 tr1 : Trace) :
  allowedNet d network = true ->
  SplitHostPort addr = Ok (host, port) ->
  parsePort W network port tr0 = (Returns (Ok portnum), tr1) ->
  allowedPort d (int16 portnum) = true ->
  w_LookupIP W tr1 host = Err err ->
  Dial W d network addr tr0
  = (Returns (Err err), tr1 ++ [EvLookupIP host (Err err)]).
Proof.
  intros H1 H2 H3 H4 H5. unfold Dial. rewrite H1, H2. cbn [negb].
  rewrite (bind_returns _ _ _ _ _ H3). rewrite H4. cbn [negb].
  unfold bind, net_LookupIP, emit. cbn zeta. rewrite H5. reflexivity.
Qed.

(** What [dialSerial] adds to the history: clock readings and connection
    attempts to the candidates, nothing else. *)
Lemma dialSerial_extends (d : Dialer) (network addr : string)
    (ips : list IP) (port : string) (tr : Trace) :
  exists evs,
    snd (dialSerial W d network addr ips port tr) = tr ++ evs
    /\ Forall (fun ev =>
                 isNow ev = true
                 \/ (isDial ev = true
                     /\ In (dialled ev) (map (target port) ips))) evs.
Proof.
  destruct ips as [|ip ips].
  - rewrite dialSerial_empty. cbn [snd]. eexists. split; [reflexivity|].
    destruct (clockReads_dials W (Timeout d) (Deadline d) tr) as (_ & _ & H).
    eapply Forall_impl; [|exact H]. auto.
  - destruct (dialSerial_spec W d network addr (ip :: ips) port tr
                ltac:(discriminate)) as (Htr & _).
    cbn zeta in Htr. rewrite Htr, <- app_assoc.
    eexists. split; [reflexivity|]. apply Forall_app. split.
    + destruct (clockReads_dials W (Timeout d) (Deadline d) tr)
        as (_ & _ & H).
      eapply Forall_impl; [|exact H]. auto.
    + unfold attempts. apply Forall_forall. intros ev Hev.
      apply in_map_iff in Hev. destruct Hev as ([a r] & <- & Hin).
      right. split; [reflexivity|]. cbn [dialled fst snd].
      eapply in_combine_l. exact Hin.
Qed.

End DialOrder.


(** ** What [Dial] refuses *)

Section DialRefusals.
Context {N : NetLib} (W : World).


(** C1. When the transport and port checks pass and the host resolves to
    addresses of which at least one is disallowed, [Dial] returns the
    blocked-range error naming a disallowed address - the first one in
    resolution order, hence that very address when it is the only
    disallowed one - and the history gains the DNS lookup and no connection
    attempt, whatever the other addresses are. *)
Theorem Dial_blocked_any (d : Dialer) (network addr host port : string)
    (portnum : Z) (ips : list IP) (ip : IP) (tr0 tr1 : Trace) :
  allowedNet d network = true ->
  SplitHostPort addr = Ok (host, port) ->
  parsePort W network port tr0 = (Returns (Ok portnum), tr1) ->
  allowedPort d (int16 portnum) = true ->
  w_LookupIP W tr1 host = Ok ips ->
  In ip ips ->
  allowedIP d ip = false ->
  exists ip' pre post,
    ips = pre ++ ip' :: post
    /\ Forall (fun x => allowedIP d x = true) pre
    /\ allowedIP d ip' = false
    /\ Dial W d network addr tr0
       = (Returns (Err (ErrBlockedRange addr (IPString ip'))),
          tr1 ++ [EvLookupIP host (Ok ips)])
    /\ dials (tr1 ++ [EvLookupIP host (Ok ips)]) = dials tr0
    /\ ((forall x, In x ips -> allowedIP d x = false -> x = ip) -> ip' = ip).
Proof.
  intros Hnet Hsplit Hport Hallowed Hips Hin Hblocked.
  destruct (find_exists (fun x => negb (allowedIP d x)) ips ip Hin)
    as (ip' & Hfind); [now rewrite Hblocked|].
  destruct (find_first _ _ _ Hfind) as (pre & post & Hdec & Hip' & Hpre).
  apply negb_true_iff in Hip'.
  exists ip', pre, post. split; [exact Hdec|]. split.
  { eapply Forall_impl; [|exact Hpre]. cbn. intros x Hx.
    now apply negb_false_iff in Hx. }
  split; [exact Hip'|]. split.
  { rewrite (Dial_resolved W d network addr host port portnum ips tr0 tr1)
      by assumption.
    now rewrite Hfind. }
  split.
  { unfold dials. rewrite filter_snoc_false by reflexivity.
    apply (parsePort_extends W _ _ _ _ _ Hport). }
  intros Huniq. apply Huniq; [|exact Hip'].
  rewrite Hdec. apply in_elt.
Qed.

End DialRefusals.

Section DialSequence.
Context {N : NetLib} (W : World).

(** C2. [Dial] checks, in this order and stopping at the first failure:
    the transport (rejected with nothing parsed, looked up or resolved:
    the history is unchanged), the host:port syntax, the port text, the
    port allow-list (rejected before any DNS lookup), the resolution, each
    resolved address; only then does it reach the serial connector.  So a
    history that gained a connection attempt comes from a call in which
    every check passed, and the attempts follow the DNS lookup. *)
Theorem Dial_check_order (d : Dialer) (network addr : string) (tr0 : Trace) :
  (allowedNet d network = false ->
   Dial W d network addr tr0
   = (Returns (Err (ErrInvalidNet network addr)), tr0))
  /\ (allowedNet d network = true ->
      forall err, SplitHostPort addr = Err err ->
      Dial W d network addr tr0 = (Returns (Err err), tr0))
  /\ (allowedNet d network = true ->
      forall host port, SplitHostPort addr = Ok (host, port) ->
      exists r tr1,
        parsePort W network port tr0 = (Returns r, tr1)
        /\ lookups tr1 = lookups tr0 /\ dials tr1 = dials tr0
        /\ (forall err, r = Err err ->
            Dial W d network addr tr0 = (Returns (Err err), tr1))
        /\ (forall portnum, r = Ok portnum ->
            (allowedPort d (int16 portnum) = false ->
             Dial W d network addr tr0
             = (Returns (Err (ErrBlockedPort addr)), tr1))
            /\ (allowedPort d (int16 portnum) = true ->
                (forall err, w_LookupIP W tr1 host = Err err ->
                 Dial W d network addr tr0
                 = (Returns (Err err), tr1 ++ [EvLookupIP host (Err err)]))
                /\ (forall ips, w_LookupIP W tr1 host = Ok ips ->
                    (forall ip,
                       find (fun x => negb (allowedIP d x)) ips = Some ip ->
                       Dial W d network addr tr0
                       = (Returns (Err (ErrBlockedRange addr (IPString ip))),
                          tr1 ++ [EvLookupIP host (Ok ips)]))
                    /\ (Forall (fun x => allowedIP d x = true) ips ->
                        Dial W d network addr tr0
                        = dialSerial W d network addr ips (Itoa portnum)
                            (tr1 ++ [EvLookupIP host (Ok ips)]))))))
  /\ (forall out tr,
        Dial W d network addr tr0 = (out, tr) ->
        dials tr <> dials tr0 ->
        allowedNet d network = true
        /\ exists host port portnum tr1 ips evs,
             SplitHostPort addr = Ok (host, port)
             /\ parsePort W network port tr0 = (Returns (Ok portnum), tr1)
             /\ allowedPort d (int16 portnum) = true
             /\ w_LookupIP W tr1 host = Ok ips
             /\ Forall (fun x => allowedIP d x = true) ips
             /\ tr = tr1 ++ [EvLookupIP host (Ok ips)] ++ evs
             /\ Forall (fun ev => isNow ev = true \/ isDial ev = true) evs).
Proof.
  split; [apply Dial_invalid_net|].
  split; [intros Hnet err; now apply Dial_bad_address|].
  split.
  - intros Hnet host port Hsplit.
    destruct (parsePort_spec W network port tr0) as (r & tr1 & Hport & _ & _).
    destruct (parsePort_extends W _ _ _ _ _ Hport) as (_ & _ & Hd & Hl).
    exists r, tr1. split; [exact Hport|]. split; [exact Hl|].
    split; [exact Hd|]. split.
    + intros err ->. eapply Dial_bad_port; eauto.
    + intros portnum ->. split.
      * intros Hp. eapply Dial_blocked_port; eauto.
      * intros Hp. split.
        -- intros err Hips. eapply Dial_unresolved; eauto.
        -- intros ips Hips. split.
           ++ intros ip Hfind.
              rewrite (Dial_resolved W d network addr host port portnum ips
                         tr0 tr1) by assumption.
              now rewrite Hfind.
           ++ intros Hall.
              rewrite (Dial_resolved W d network addr host port portnum ips
                         tr0 tr1) by assumption.
              destruct (find _ ips) as [ip|] eqn:Hfind; [|reflexivity].
              apply find_some in Hfind. destruct Hfind as [Hin Hb].
              rewrite Forall_forall in Hall. rewrite (Hall ip Hin) in Hb.
              discriminate.
  - intros out tr Hrun Hdials.
    destruct (allowedNet d network) eqn:Hnet.
    2:{ rewrite Dial_invalid_net in Hrun by assumption.
        injection Hrun as _ <-. contradiction. }
    split; [reflexivity|].
    destruct (SplitHostPort addr) as [[host port]|err] eqn:Hsplit.
    2:{ rewrite (Dial_bad_address W d network addr err) in Hrun
          by assumption.
        injection Hrun as _ <-. contradiction. }
    destruct (parsePort_spec W network port tr0) as (r & tr1 & Hport & _ & _).
    destruct (parsePort_extends W _ _ _ _ _ Hport) as (_ & _ & Hd & _).
    destruct r as [portnum|err].
    2:{ rewrite (Dial_bad_port W d network addr host port err tr0 tr1)
          in Hrun by assumption.
        injection Hrun as _ <-. contradiction. }
    destruct (allowedPort d (int16 portnum)) eqn:Hp.
    2:{ rewrite (Dial_blocked_port W d network addr host port portnum tr0 tr1)
          in Hrun by assumption.
        injection Hrun as _ <-. contradiction. }
    destruct (w_LookupIP W tr1 host) as [ips|err] eqn:Hips.
    2:{ rewrite (Dial_unresolved W d network addr host port portnum err
                   tr0 tr1) in Hrun by assumption.
        injection Hrun as _ <-. exfalso. apply Hdials.
        unfold dials. now rewrite filter_snoc_false. }
    rewrite (Dial_resolved W d network addr host port portnum ips tr0 tr1)
      in Hrun by assumption.
    destruct (find (fun ip => negb (allowedIP d ip)) ips) as [ip|] eqn:Hfind.
    { injection Hrun as _ <-. exfalso. apply Hdials.
      unfold dials. now rewrite filter_snoc_false. }
    destruct (dialSerial_extends W d network addr ips (Itoa portnum)
                (tr1 ++ [EvLookupIP host (Ok ips)])) as (evs & Hevs & Hall).
    rewrite Hrun in Hevs. cbn [snd] in Hevs.
    exists host, port, portnum, tr1, ips, evs.
    repeat split; try assumption.
    + apply Forall_forall. intros x Hx.
      pose proof (find_none _ _ Hfind x Hx) as Hb.
      now apply negb_false_iff in Hb.
    + now rewrite Hevs, <- app_assoc.
    + eapply Forall_impl; [|exact Hall]. cbn. intros ev [H|[H _]]; auto.
Qed.

End DialSequence.

Section DialSpellings.
Context {N : NetLib} (W : World).



End DialSpellings.

(** ** The serial connector's budget and fallback *)

Section SerialClaims.
Context {N : NetLib} (W : World).

Lemma quot_nonpos (a n : Z) : a <= 0 -> 0 < n -> Z.quot a n <= 0.
Proof.
  intros Ha Hn. rewrite <- (Z.opp_involutive a).
  rewrite Z.quot_opp_l by lia.
  pose proof (Z.quot_pos (- a) n ltac:(lia) Hn). lia.
Qed.

Lemma answers_nonempty (rs : list (result Conn)) (ips : list IP) :
  ips <> [] ->
  (exists errs c, rs = map Err errs ++ [Ok c])
  \/ (exists e errs, rs = map Err (e :: errs)) ->
  rs <> [].
Proof.
  intros _ [(errs & c & ->)|(e & errs & ->)].
  - destruct errs; discriminate.
  - discriminate.
Qed.

(** C5. With at least one candidate: when a timeout [T] is configured the
    deadline given to the attempts is [now + T], or the earlier of that
    and the configured deadline [D] when there is one; when the attempts
    have a deadline, their timeout is the remaining time divided by the
    number of candidates, raised to 2 seconds when smaller, and capped by
    [T] when [T] is set - so it stays [T] when [T] is below 2 seconds.
    Every attempt is made with that deadline and timeout. *)
Theorem dialSerial_time_budget (d : Dialer) (network addr : string)
    (ips : list IP) (port : string) (tr0 : Trace) :
  ips <> [] ->
  let T := Timeout d in
  let D := Deadline d in
  let n := Z.of_nat (List.length ips) in
  let t1 := w_Now W tr0 in
  let t2 := w_Now W (tr0 ++ (if T >? 0 then [EvNow t1] else [])) in
  exists dialer pre rs,
    snd (dialSerial W d network addr ips port tr0)
    = tr0 ++ pre ++ attempts dialer network (map (target port) ips) rs
    /\ Forall (fun ev => isNow ev = true) pre
    /\ rs <> []
    /\ nd_KeepAlive dialer = KeepAlive d
    /\ nd_LocalAddr dialer = LocalAddr d
    /\ (0 < T -> D = 0 -> nd_Deadline dialer = t1 + T)
    /\ (0 < T -> D <> 0 -> nd_Deadline dialer = Z.min (t1 + T) D)
    /\ (T <= 0 -> nd_Deadline dialer = D)
    /\ (nd_Deadline dialer <> 0 -> T = 0 ->
        nd_Timeout dialer
        = Z.max (2 * Second)
            (Z.quot (time.Sub (nd_Deadline dialer) t2) n))
    /\ (nd_Deadline dialer <> 0 -> T <> 0 ->
        nd_Timeout dialer
        = Z.min T (Z.max (2 * Second)
                     (Z.quot (time.Sub (nd_Deadline dialer) t2) n)))
    /\ (nd_Deadline dialer = 0 -> nd_Timeout dialer = T)
    /\ (0 < T < 2 * Second -> nd_Timeout dialer = T).
Proof.
  intros Hne. cbn zeta.
  destruct (dialSerial_spec W d network addr ips port tr0 Hne)
    as (Htr & Hshape).
  cbn zeta in Htr, Hshape.
  eexists _, (clockReads W (Timeout d) (Deadline d) tr0), _.
  split; [rewrite Htr, <- app_assoc; reflexivity|].
  split; [apply (clockReads_dials W)|].
  split.
  { apply (answers_nonempty _ ips Hne).
    destruct Hshape as [(errs & c & H & _)|(e & errs & H & _)]; eauto. }
  cbn [nd_Timeout nd_Deadline nd_KeepAlive nd_LocalAddr].
  unfold attemptTimeout, effectiveDeadline.
  split; [reflexivity|]. split; [reflexivity|].
  split.
  { intros HT HD. replace (Timeout d >? 0) with true by lia.
    now replace (Deadline d =? 0) with true by lia. }
  split.
  { intros HT HD. replace (Timeout d >? 0) with true by lia.
    now replace (Deadline d =? 0) with false by lia. }
  split.
  { intros HT. now replace (Timeout d >? 0) with false by lia. }
  split.
  { intros HE HT0.
    match goal with |- context [?E =? 0] =>
      replace (E =? 0) with false by lia end.
    now replace (Timeout d =? 0) with true by lia. }
  split.
  { intros HE HT0.
    match goal with |- context [?E =? 0] =>
      replace (E =? 0) with false by lia end.
    now replace (Timeout d =? 0) with false by lia. }
  split.
  { intros HE.
    match goal with |- context [?E =? 0] =>
      replace (E =? 0) with true by lia end.
    reflexivity. }
  intros HT.
  match goal with |- context [?E =? 0] => destruct (E =? 0) end;
    [reflexivity|].
  replace (Timeout d =? 0) with false by lia. lia.
Qed.

(** C6. With at least one candidate, the connector dials the candidates
    in list order with one net.Dialer; it stops at the first attempt that
    connects and returns that connection, so the addresses dialled are a
    prefix of the list and every earlier attempt failed; when every
    attempt fails, each candidate was dialled once and the error returned
    is the error of the first candidate. *)
Theorem dialSerial_first_success_first_error (d : Dialer)
    (network addr : string) (ips : list IP) (port : string) (tr0 : Trace) :
  ips <> [] ->
  exists dialer pre rs,
    snd (dialSerial W d network addr ips port tr0)
    = tr0 ++ pre ++ attempts dialer network (map (target port) ips) rs
    /\ dials pre = []
    /\ rs = worldAnswers W dialer network (tr0 ++ pre)
              (map (target port) ips)
    /\ map dialled (attempts dialer network (map (target port) ips) rs)
       = firstn (List.length rs) (map (target port) ips)
    /\ ((exists errs c,
            rs = map Err errs ++ [Ok c]
            /\ (List.length rs <= List.length ips)%nat
            /\ fst (dialSerial W d network addr ips port tr0)
               = Returns (Ok c))
        \/ (exists e errs,
            rs = map Err (e :: errs)
            /\ List.length rs = List.length ips
            /\ fst (dialSerial W d network addr ips port tr0)
               = Returns (Err e))).
Proof.
  intros Hne.
  destruct (dialSerial_spec W d network addr ips port tr0 Hne)
    as (Htr & Hshape).
  cbn zeta in Htr, Hshape.
  eexists _, (clockReads W (Timeout d) (Deadline d) tr0), _.
  split; [rewrite Htr, <- app_assoc; reflexivity|].
  split; [apply (clockReads_dials W)|].
  split; [reflexivity|].
  split; [|exact Hshape].
  apply attempts_dialled. rewrite length_map.
  destruct Hshape as [(errs & c & _ & H & _)|(e & errs & _ & H & _)]; lia.
Qed.

(** C8, as the code has it.  With at least one candidate and a configured
    deadline that has passed, the connector makes no check of its own: it
    hands the candidates, in order and starting with the first, to
    net.Dialer.Dial with that past deadline and a timeout of 2 seconds
    (the configured timeout when that is set and smaller).  The call fails
    with the first candidate's error, after one attempt per candidate,
    provided net.Dialer.Dial refuses attempts whose deadline has passed. *)
Theorem dialSerial_past_deadline (d : Dialer) (network addr : string)
    (ips : list IP) (port : string) (tr0 : Trace) :
  ips <> [] ->
  Deadline d <> 0 ->
  (forall tr, Deadline d < w_Now W tr) ->
  let T := Timeout d in
  let dialer :=
    mkNetDialer (if T =? 0 then 2 * Second else Z.min T (2 * Second))
                (Deadline d) (KeepAlive d) (LocalAddr d) in
  exists pre rs,
    snd (dialSerial W d network addr ips port tr0)
    = tr0 ++ pre ++ attempts dialer network (map (target port) ips) rs
    /\ dials pre = []
    /\ rs = worldAnswers W dialer network (tr0 ++ pre)
              (map (target port) ips)
    /\ rs <> []
    /\ ((forall tr dl net a,
            nd_Deadline dl <> 0 -> nd_Deadline dl < w_Now W tr ->
            isErr (w_Dial W tr dl net a) = true) ->
        exists e errs,
          rs = map Err (e :: errs)
          /\ List.length rs = List.length ips
          /\ fst (dialSerial W d network addr ips port tr0)
             = Returns (Err e)).
Proof.
  intros Hne HD Hpast. cbn zeta.
  destruct (dialSerial_spec W d network addr ips port tr0 Hne)
    as (Htr & Hshape).
  cbn zeta in Htr, Hshape.
  assert (HE : effectiveDeadline (Timeout d) (Deadline d) (w_Now W tr0)
               = Deadline d).
  { unfold effectiveDeadline. pose proof (Hpast tr0).
    destruct (Timeout d >? 0) eqn:HT; [|reflexivity].
    replace (Deadline d =? 0) with false by lia. lia. }
  rewrite HE in Htr, Hshape.
  assert (HT : forall t2 n, 0 < n -> Deadline d < t2 ->
               attemptTimeout (Timeout d) (Deadline d) t2 n
               = (if Timeout d =? 0 then 2 * Second
                  else Z.min (Timeout d) (2 * Second))).
  { intros t2 n Hn Ht2. unfold attemptTimeout.
    replace (Deadline d =? 0) with false by lia.
    assert (Hq : Z.quot (time.Sub (Deadline d) t2) n <= 0).
    { apply quot_nonpos; [|exact Hn]. unfold time.Sub, minInt64, maxInt64.
      lia. }
    unfold Second in *. destruct (Timeout d =? 0); lia. }
  assert (Hn : 0 < Z.of_nat (List.length ips))
    by (destruct ips; [congruence|cbn; lia]).
  rewrite (HT _ _ Hn (Hpast _)) in Htr, Hshape.
  eexists (clockReads W (Timeout d) (Deadline d) tr0), _.
  split; [rewrite Htr, <- app_assoc; reflexivity|].
  split; [apply (clockReads_dials W)|].
  split; [reflexivity|].
  split.
  { apply (answers_nonempty _ ips Hne).
    destruct Hshape as [(errs & c & H & _)|(e & errs & H & _)]; eauto. }
  intros Hrefuse.
  destruct Hshape as [(errs & c & Hrs & _)|Hfail]; [|exact Hfail].
  exfalso.
  assert (Hall : forall addrs tr,
    Forall (fun r => isErr r = true)
      (worldAnswers W
         (mkNetDialer (if Timeout d =? 0 then 2 * Second
                       else Z.min (Timeout d) (2 * Second))
                      (Deadline d) (KeepAlive d) (LocalAddr d))
         network tr addrs)).
  { induction addrs as [|a addrs IH]; intros tr; cbn; [constructor|].
    pose proof (Hrefuse tr
      (mkNetDialer (if Timeout d =? 0 then 2 * Second
                    else Z.min (Timeout d) (2 * Second))
                   (Deadline d) (KeepAlive d) (LocalAddr d))
      network a HD (Hpast tr)) as Ha.
    constructor; [exact Ha|].
    destruct (w_Dial W tr _ network a); [discriminate|apply IH]. }
  specialize (Hall (map (target port) ips)
                (tr0 ++ clockReads W (Timeout d) (Deadline d) tr0)).
  rewrite Hrs in Hall. apply Forall_app in Hall. destruct Hall as [_ Hc].
  inversion Hc as [|? ? Hbad _]. discriminate.
Qed.

End SerialClaims.

(** ** The theorems on the simulated world *)


Lemma Dial_blocked_any_witness :
  exists ip',
    allowedIP Sim.defaultDialer ip' = false
    /\ Dial Sim.world Sim.defaultDialer "tcp" "rebind.example:80" []
       = (Returns (Err (ErrBlockedRange "rebind.example:80" (IPString ip'))),
          [] ++ [EvLookupIP "rebind.example"
                   (Ok [GoNet.IPv4 93 184 216 34; GoNet.IPv4 10 0 0 5])]).
Proof.
  destruct (Dial_blocked_any Sim.world Sim.defaultDialer "tcp"
              "rebind.example:80" "rebind.example" "80" 80
              [GoNet.IPv4 93 184 216 34; GoNet.IPv4 10 0 0 5]
              (GoNet.IPv4 10 0 0 5) [] []
              eq_refl eq_refl eq_refl eq_refl eq_refl
              (or_intror (or_introl eq_refl)) eq_refl)
    as (ip' & pre & post & _ & _ & Hb & Hrun & _).
  exists ip'. split; [exact Hb|exact Hrun].
Defined.

Lemma Dial_check_order_witness :
  allowedNet Sim.defaultDialer "udp" = false
  /\ Dial Sim.world Sim.defaultDialer "udp" "example.org:80" []
     = (Returns (Err (ErrInvalidNet "udp" "example.org:80")), []).
Proof.
  assert (H : allowedNet Sim.defaultDialer "udp" = false) by reflexivity.
  split; [exact H|].
  exact (proj1 (Dial_check_order Sim.world Sim.defaultDialer "udp"
                  "example.org:80" []) H).
Defined.


(** The four spellings of the loopback address, the other rejections of
    the README and tests, and a successful dial. *)
Example Dial_examples :
  map (fun addr => fst (Dial Sim.world Sim.defaultDialer "tcp" addr []))
      [ "127.0.0.1:80"; "2130706433:80"; "0x7f000001:80"; "0177.0.0.1:80";
        "[fe80::1]:80"; "localhost:80"; "example.org:25"; "example.org:80" ]
  = [ Returns (Err (ErrBlockedRange "127.0.0.1:80" "127.0.0.1"));
      Returns (Err (ErrBlockedRange "2130706433:80" "127.0.0.1"));
      Returns (Err (ErrBlockedRange "0x7f000001:80" "127.0.0.1"));
      Returns (Err (ErrBlockedRange "0177.0.0.1:80" "127.0.0.1"));
      Returns (Err (ErrBlockedRange "[fe80::1]:80" "fe80::1"));
      Returns (Err (ErrBlockedRange "localhost:80" "::1"));
      Returns (Err (ErrBlockedPort "example.org:25"));
      Returns (Ok "93.184.216.34:80") ].
Proof. reflexivity. Qed.

Lemma dialSerial_time_budget_witness :
  Sim.downIPs <> []
  /\ exists dialer pre rs,
       snd (dialSerial Sim.world
              (Sim.withBudget Sim.defaultDialer (10 * Second) 0)
              "tcp" "down.example:80" Sim.downIPs "80" [])
       = [] ++ pre ++ attempts dialer "tcp" (map (target "80") Sim.downIPs) rs
       /\ nd_Deadline dialer = Sim.Now [] + 10 * Second.
Proof.
  assert (H : Sim.downIPs <> []) by discriminate.
  split; [exact H|].
  destruct (dialSerial_time_budget Sim.world
              (Sim.withBudget Sim.defaultDialer (10 * Second) 0)
              "tcp" "down.example:80" Sim.downIPs "80" [] H)
    as (dialer & pre & rs & Htr & _ & _ & _ & _ & HD & _).
  exists dialer, pre, rs. split; [exact Htr|].
  apply HD; reflexivity.
Defined.

Lemma dialSerial_first_success_first_error_witness :
  Sim.mixedIPs <> []
  /\ exists dialer pre rs,
       snd (dialSerial Sim.world Sim.defaultDialer "tcp" "mixed.example:80"
              Sim.mixedIPs "80" [])
       = [] ++ pre ++ attempts dialer "tcp" (map (target "80") Sim.mixedIPs) rs
       /\ map dialled (attempts dialer "tcp" (map (target "80") Sim.mixedIPs) rs)
          = firstn (List.length rs) (map (target "80") Sim.mixedIPs).
Proof.
  assert (H : Sim.mixedIPs <> []) by discriminate.
  split; [exact H|].
  destruct (dialSerial_first_success_first_error Sim.world Sim.defaultDialer
              "tcp" "mixed.example:80" Sim.mixedIPs "80" [] H)
    as (dialer & pre & rs & Htr & _ & _ & Hd & _).
  exists dialer, pre, rs. split; [exact Htr|exact Hd].
Defined.

Example dialSerial_examples :
  fst (dialSerial Sim.world Sim.defaultDialer "tcp" "mixed.example:80"
         Sim.mixedIPs "80" [])
  = Returns (Ok "93.184.216.34:80")
  /\ map dialled
       (dials (snd (dialSerial Sim.world Sim.defaultDialer "tcp"
                      "mixed.example:80" Sim.mixedIPs "80" [])))
     = ["203.0.114.1:80"; "93.184.216.34:80"]
  /\ fst (dialSerial Sim.world Sim.defaultDialer "tcp" "down.example:80"
            Sim.downIPs "80" [])
     = Returns (Err (ErrNet
         "dial tcp 203.0.114.1:80: connect: connection refused")).
Proof. repeat split; reflexivity. Qed.

Lemma past_deadline_is_past (tr : @Trace goNet) :
  Sim.clock0 - 5 < Sim.Now tr.
Proof. unfold Sim.Now. lia. Qed.

Lemma dialSerial_past_deadline_witness :
  Sim.mixedIPs <> []
  /\ Deadline (Sim.withBudget Sim.defaultDialer 0 (Sim.clock0 - 5)) <> 0
  /\ exists pre rs,
       snd (dialSerial Sim.world
              (Sim.withBudget Sim.defaultDialer 0 (Sim.clock0 - 5))
              "tcp" "mixed.example:80" Sim.mixedIPs "80" [])
       = [] ++ pre
         ++ attempts (mkNetDialer (2 * Second) (Sim.clock0 - 5) 0 None)
              "tcp" (map (target "80") Sim.mixedIPs) rs
       /\ rs <> [].
Proof.
  assert (H1 : Sim.mixedIPs <> []) by discriminate.
  assert (H2 : Deadline (Sim.withBudget Sim.defaultDialer 0 (Sim.clock0 - 5))
               <> 0) by discriminate.
  split; [exact H1|]. split; [exact H2|].
  destruct (dialSerial_past_deadline Sim.world
              (Sim.withBudget Sim.defaultDialer 0 (Sim.clock0 - 5))
              "tcp" "mixed.example:80" Sim.mixedIPs "80" [] H1 H2
              past_deadline_is_past)
    as (pre & rs & Htr & _ & _ & Hne & _).
  exists pre, rs. split; [exact Htr|exact Hne].
Defined.

(** C8, as stated, fails: the deadline below has passed when the connector
    runs (and the simulated net.Dialer refuses every attempt for that
    reason), yet the connector hands each of the three candidates to
    net.Dialer.Dial, and the error it returns is the first candidate's. *)
Lemma dialSerial_past_deadline_still_dials :
  let d := Sim.withBudget Sim.defaultDialer 0 (Sim.clock0 - 5) in
  time.IsZero (Deadline d) = false
  /\ time.Before (Deadline d) (Sim.Now []) = true
  /\ map dialled
       (dials (snd (dialSerial Sim.world d "tcp" "mixed.example:80"
                      Sim.mixedIPs "80" [])))
     = ["203.0.114.1:80"; "93.184.216.34:80"; "203.0.114.2:80"]
  /\ fst (dialSerial Sim.world d "tcp" "mixed.example:80" Sim.mixedIPs "80" [])
     = Returns (Err (ErrNet "dial tcp 203.0.114.1:80: i/o timeout")).
Proof. cbn zeta. repeat split; reflexivity. Qed.

(** C7 fails on the code: with no candidate and a timeout of one second
    (or any deadline) the division by the number of candidates panics
    before the "no IP addresses found" error is built; that error is
    returned only when neither a timeout nor a deadline is set. *)
Theorem dialSerial_empty_with_timeout_panics :
  fst (dialSerial Sim.world (Sim.withBudget Sim.defaultDialer (1 * Second) 0)
         "tcp" "empty.example:80" [] "80" [])
  = Panics "runtime error: integer divide by zero"
  /\ fst (dialSerial Sim.world
            (Sim.withBudget Sim.defaultDialer 0 (Sim.clock0 + 60 * Second))
            "tcp" "empty.example:80" [] "80" [])
     = Panics "runtime error: integer divide by zero"
  /\ fst (dialSerial Sim.world Sim.defaultDialer
            "tcp" "empty.example:80" [] "80" [])
     = Returns (Err (ErrNoAddresses "empty.example:80")).
Proof. repeat split; reflexivity. Qed.

(** * Further properties of the package *)

(** ** port.go: [dtoi] *)

Lemma decimal_ge (ds : string) :
  forall m, allDigits ds = true -> 0 <= m -> m <= decimal m ds.
Proof.
  induction ds as [|c ds IH]; cbn; intros m Hd Hm; [lia|].
  apply andb_true_iff in Hd. destruct Hd as [Hc Hds].
  unfold isDigit in Hc. apply andb_true_iff in Hc.
  specialize (IH (m * 10 + (byte c - 48)) Hds). lia.
Qed.

Lemma dtoi_loop_digits (ds rest : string) :
  forall n i,
    allDigits ds = true -> stopsDigits rest -> 0 <= n ->
    decimal n ds < big ->
    dtoi_loop (ds ++ rest) n i = inl (decimal n ds, (i + String.length ds)%nat).
Proof.
  induction ds as [|c ds IH]; cbn [append decimal String.length allDigits];
    intros n i Hd Hstop Hn Hlt.
  - rewrite Nat.add_0_r. destruct rest as [|c r]; [reflexivity|].
    cbn in *. now rewrite Hstop.
  - apply andb_true_iff in Hd. destruct Hd as [Hc Hds].
    cbn [dtoi_loop]. rewrite Hc. cbn zeta.
    assert (Hc' := Hc). unfold isDigit in Hc'. apply andb_true_iff in Hc'.
    pose proof (decimal_ge ds (n * 10 + (byte c - 48)) Hds ltac:(lia)).
    replace (n * 10 + (byte c - 48) >=? big) with false by lia.
    rewrite IH by (auto; lia). now rewrite Nat.add_succ_r.
Qed.

Lemma dtoi_loop_overflow (ds rest : string) :
  forall n i,
    allDigits ds = true -> 0 <= n < big -> big <= decimal n ds ->
    exists j, (j < String.length ds)%nat
              /\ dtoi_loop (ds ++ rest) n i = inr (i + j)%nat.
Proof.
  induction ds as [|c ds IH]; cbn [append decimal String.length allDigits];
    intros n i Hd Hn Hge; [lia|].
  apply andb_true_iff in Hd. destruct Hd as [Hc Hds].
  cbn [dtoi_loop]. rewrite Hc. cbn zeta.
  assert (Hc' := Hc). unfold isDigit in Hc'. apply andb_true_iff in Hc'.
  destruct (n * 10 + (byte c - 48) >=? big) eqn:E.
  - exists 0%nat. split; [lia|]. now rewrite Nat.add_0_r.
  - destruct (IH (n * 10 + (byte c - 48)) (S i) Hds ltac:(lia) Hge)
      as (j & Hj & Hrun).
    exists (S j). split; [lia|]. now rewrite Hrun, Nat.add_succ_r.
Qed.

Lemma dtoi_loop_bounds (rest : string) :
  forall n i,
    0 <= n < big ->
    match dtoi_loop rest n i with
    | inl (m, j) =>
        n <= m < big /\ (i <= j <= i + String.length rest)%nat
        /\ (j = i -> m = n)
    | inr j => (i <= j < i + String.length rest)%nat
    end.
Proof.
  induction rest as [|c rest IH]; cbn [dtoi_loop String.length]; intros n i Hn.
  - repeat split; lia.
  - destruct (isDigit c) eqn:Hc; [|repeat split; lia]. cbn zeta.
    unfold isDigit in Hc. apply andb_true_iff in Hc.
    destruct (n * 10 + (byte c - 48) >=? big) eqn:E; [lia|].
    specialize (IH (n * 10 + (byte c - 48)) (S i) ltac:(lia)).
    destruct (dtoi_loop rest (n * 10 + (byte c - 48)) (S i)) as [[m j]|j];
      [|lia].
    repeat split; lia.
Qed.

Lemma length_skip (i0 : nat) :
  forall s, String.length (skip i0 s) = (String.length s - i0)%nat.
Proof.
  induction i0 as [|k IH]; intros s; cbn; [lia|].
  destruct s as [|c s]; cbn; [reflexivity|apply IH].
Qed.

Lemma append_empty_r (s : string) : (s ++ "")%string = s.
Proof. induction s as [|c s IH]; cbn; [reflexivity|now rewrite IH]. Qed.

Lemma length_nonempty (s : string) : s <> EmptyString -> (0 < String.length s)%nat.
Proof. destruct s; [congruence|cbn; lia]. Qed.

Lemma dtoi_decimal_aux (ds rest : string) :
  ds <> EmptyString ->
  allDigits ds = true ->
  stopsDigits rest ->
  decimal 0 ds < big ->
  dtoi (ds ++ rest) 0 = (decimal 0 ds, String.length ds, true).
Proof.
  intros Hne Hd Hstop Hlt. unfold dtoi. cbn [skip].
  rewrite (dtoi_loop_digits ds rest 0 0%nat Hd Hstop ltac:(lia) Hlt).
  cbn [Nat.add]. pose proof (length_nonempty ds Hne).
  destruct (Nat.eqb_spec (String.length ds) 0); [lia|reflexivity].
Qed.

(** [dtoi] reads a leading run of decimal digits: on a non-empty run that
    ends at the end of the text or at a byte that is not a digit, and
    whose value is below [big], it returns the value, the offset just
    after the run, and success.  Leading zeros are accepted. *)
Theorem dtoi_decimal (ds rest : string) :
  ds <> EmptyString ->
  allDigits ds = true ->
  stopsDigits rest ->
  decimal 0 ds < big ->
  dtoi (ds ++ rest) 0 = (decimal 0 ds, String.length ds, true).
Proof. exact (dtoi_decimal_aux ds rest). Qed.

Lemma dtoi_overflow_aux (ds rest : string) :
  allDigits ds = true ->
  big <= decimal 0 ds ->
  exists j, (j < String.length ds)%nat /\ dtoi (ds ++ rest) 0 = (0, j, false).
Proof.
  intros Hd Hge. unfold dtoi. cbn [skip].
  destruct (dtoi_loop_overflow ds rest 0 0%nat Hd ltac:(unfold big; lia) Hge)
    as (j & Hj & Hrun).
  exists j. split; [exact Hj|]. now rewrite Hrun.
Qed.

(** [dtoi] gives up on a run of digits whose value reaches [big]
    (0xFFFFFF): it returns 0, an offset inside the run, and failure. *)
Theorem dtoi_overflow (ds rest : string) :
  allDigits ds = true ->
  big <= decimal 0 ds ->
  exists j, (j < String.length ds)%nat /\ dtoi (ds ++ rest) 0 = (0, j, false).
Proof. exact (dtoi_overflow_aux ds rest). Qed.

(** What [dtoi] returns, for any text and offset: on success a number in
    [0, big) and an offset past [i0] within the text; on failure the
    number 0; the offset never moves backwards. *)
Theorem dtoi_bounds (s : string) (i0 : nat) :
  let '(n, i, ok) := dtoi s i0 in
  (i0 <= i)%nat
  /\ (ok = true -> 0 <= n < big /\ (i0 < i <= String.length s)%nat)
  /\ (ok = false -> n = 0).
Proof.
  unfold dtoi.
  pose proof (dtoi_loop_bounds (skip i0 s) 0 i0 ltac:(unfold big; lia)) as H.
  rewrite length_skip in H.
  destruct (dtoi_loop (skip i0 s) 0 i0) as [[m j]|j].
  - destruct (Nat.eqb_spec j i0) as [->|Hneq].
    + repeat split; try lia; discriminate.
    + repeat split; try lia; discriminate.
  - repeat split; try lia; discriminate.
Qed.

Lemma allDigits_split (s : string) :
  allDigits s = false ->
  exists ds c r,
    s = (ds ++ String c r)%string /\ allDigits ds = true /\ isDigit c = false.
Proof.
  induction s as [|c s IH]; cbn; [discriminate|].
  destruct (isDigit c) eqn:Hc; cbn.
  - intros H. destruct (IH H) as (ds & c' & r & -> & Hds & Hc').
    exists (String c ds), c', r. cbn. rewrite Hc, Hds. auto.
  - intros _. exists EmptyString, c, s. auto.
Qed.

Lemma length_append (a b : string) :
  String.length (a ++ b) = (String.length a + String.length b)%nat.
Proof. induction a as [|c a IH]; cbn; [reflexivity|now rewrite IH]. Qed.

(** The port text is not a complete decimal numeral below [big]. *)
Lemma dtoi_incomplete (port : string) :
  port = EmptyString \/ allDigits port = false \/ big <= decimal 0 port ->
  let '(_, i, ok) := dtoi port 0 in
  negb ok || negb (Nat.eqb i (String.length port)) = true.
Proof.
  intros H.
  destruct (string_dec port EmptyString) as [->|Hne]; [reflexivity|].
  destruct (allDigits port) eqn:Hd.
  - destruct H as [H|[H|Hbig]]; [contradiction|discriminate|].
    destruct (dtoi_overflow_aux port "" Hd Hbig) as (j & _ & Hrun).
    rewrite append_empty_r in Hrun. now rewrite Hrun.
  - clear H. destruct (allDigits_split port Hd) as (ds & c & r & -> & Hds & Hc).
    destruct (Z_lt_ge_dec (decimal 0 ds) big) as [Hlt|Hge].
    + destruct ds as [|c0 ds0].
      * cbn [append]. unfold dtoi. cbn [skip dtoi_loop]. rewrite Hc.
        reflexivity.
      * rewrite (dtoi_decimal_aux (String c0 ds0) (String c r)
                   ltac:(discriminate) Hds Hc Hlt).
        rewrite length_append. cbn [negb orb String.length].
        destruct (Nat.eqb_spec (S (String.length ds0))
                    (S (String.length ds0) + S (String.length r))); [lia|].
        reflexivity.
    + destruct (dtoi_overflow_aux ds (String c r) Hds ltac:(lia))
        as (j & _ & ->). reflexivity.
Qed.

(** ** port.go: [parsePort] *)

Section PortText.
Context {N : NetLib} (W : World).

Lemma dtoi_complete (ds : string) :
  ds <> EmptyString -> allDigits ds = true -> decimal 0 ds < big ->
  dtoi ds 0 = (decimal 0 ds, String.length ds, true).
Proof.
  intros Hne Hd Hlt.
  pose proof (dtoi_decimal_aux ds "" Hne Hd I Hlt) as H.
  now rewrite append_empty_r in H.
Qed.

Lemma parsePort_decimal_aux (network ds : string) (tr : Trace) :
  ds <> EmptyString ->
  allDigits ds = true ->
  decimal 0 ds < big ->
  parsePort W network ds tr
  = (Returns (if decimal 0 ds <=? 65535
              then Ok (decimal 0 ds)
              else Err (AddrError "invalid port" ds)),
     tr).
Proof.
  intros Hne Hd Hlt. unfold parsePort.
  rewrite (dtoi_complete ds Hne Hd Hlt). rewrite Nat.eqb_refl.
  cbn [negb orb]. unfold bind, ret.
  pose proof (decimal_ge ds 0 Hd ltac:(lia)).
  replace (decimal 0 ds <? 0) with false by lia. cbn [orb].
  destruct (decimal 0 ds <=? 65535) eqn:E.
  - now replace (decimal 0 ds >? 65535) with false by lia.
  - now replace (decimal 0 ds >? 65535) with true by lia.
Qed.

(** A port written as a decimal numeral below [big] is decided without
    any call outside the process: it is returned when it is at most 65535
    and is an "invalid port" address error otherwise. *)
Theorem parsePort_decimal (network ds : string) (tr : Trace) :
  ds <> EmptyString ->
  allDigits ds = true ->
  decimal 0 ds < big ->
  parsePort W network ds tr
  = (Returns (if decimal 0 ds <=? 65535
              then Ok (decimal 0 ds)
              else Err (AddrError "invalid port" ds)),
     tr).
Proof. exact (parsePort_decimal_aux network ds tr). Qed.

(** Any other port text - empty, containing a byte that is not a digit,
    or a numeral of value [big] or more - goes to net.LookupPort, once,
    with the text unchanged; a lookup error is returned as it is, and a
    number it answers is returned only when it lies in [0, 65535]. *)
Theorem parsePort_service (network port : string) (tr : Trace) :
  port = EmptyString \/ allDigits port = false \/ big <= decimal 0 port ->
  parsePort W network port tr
  = (Returns (match w_LookupPort W tr network port with
              | Err err => Err err
              | Ok p => if (p <? 0) || (p >? 65535)
                        then Err (AddrError "invalid port" port)
                        else Ok p
              end),
     tr ++ [EvLookupPort network port (w_LookupPort W tr network port)]).
Proof.
  intros H. pose proof (dtoi_incomplete port H) as Hd.
  unfold parsePort. destruct (dtoi port 0) as [[p i] ok]. rewrite Hd.
  unfold bind, net_LookupPort, emit, ret. cbn zeta.
  destruct (w_LookupPort W tr network port) as [q|err]; [|reflexivity].
  destruct ((q <? 0) || (q >? 65535)); reflexivity.
Qed.

(** Whatever the text and whatever net.LookupPort answers, [parsePort]
    returns without panicking, makes at most one call outside the process
    (a service lookup for this network and text), and a port it returns
    lies in [0, 65535]. *)
Theorem parsePort_total_in_range (network port : string) (tr : Trace) :
  exists r evs,
    parsePort W network port tr = (Returns r, tr ++ evs)
    /\ (evs = [] \/ exists x, evs = [EvLookupPort network port x])
    /\ (forall p, r = Ok p -> 0 <= p <= 65535).
Proof.
  destruct (parsePort_spec W network port tr) as (r & tr' & Hrun & Htr & Hp).
  destruct Htr as [->|[x ->]].
  - exists r, []. rewrite app_nil_r. auto.
  - exists r, [EvLookupPort network port x]. eauto.
Qed.

(** A numeric port that the allow-list does not contain is refused by
    [Dial] with "blocked port" and without any call outside the process:
    no service lookup, no DNS lookup, no connection attempt. *)
Theorem Dial_numeric_port_blocked (d : Dialer) (network addr host ds : string)
    (tr0 : Trace) :
  allowedNet d network = true ->
  SplitHostPort addr = Ok (host, ds) ->
  ds <> EmptyString ->
  allDigits ds = true ->
  decimal 0 ds <= 65535 ->
  ~ In (int16 (decimal 0 ds)) (AllowedPorts d) ->
  Dial W d network addr tr0 = (Returns (Err (ErrBlockedPort addr)), tr0).
Proof.
  intros Hnet Hsplit Hne Hd Hle Hnot.
  pose proof (parsePort_decimal_aux network ds tr0 Hne Hd
                ltac:(unfold big; lia)) as Hport.
  replace (decimal 0 ds <=? 65535) with true in Hport by lia.
  eapply Dial_blocked_port; eauto.
  destruct (allowedPort d (int16 (decimal 0 ds))) eqn:E; [|reflexivity].
  apply allowedPort_In in E. contradiction.
Qed.

Lemma DefaultDialer_ports_nets_aux (d : Dialer) :
  DefaultDialer = Returns d ->
  (forall p, 0 <= p <= 65535 ->
     (allowedPort d (int16 p) = true
      <-> p = 80 \/ p = 443 \/ p = 8080 \/ p = 8443))
  /\ (forall network, allowedNet d network = true <-> network = "tcp").
Proof.
  unfold DefaultDialer. intros H.
  destruct (cidrRanges DefaultRanges) as [nets|msg]; [|discriminate].
  injection H as <-. split.
  - intros p Hp. rewrite allowedPort_In. cbn [AllowedPorts In].
    destruct (Z_le_gt_dec p 32767).
    + rewrite int16_low by lia. intuition lia.
    + rewrite int16_high by lia. intuition lia.
  - intros network. rewrite allowedNet_In. cbn [AllowedNets In].
    intuition congruence.
Qed.

(** Under the default policy a port in [0, 65535] passes the allow-list
    exactly when it is 80, 443, 8080 or 8443 - the 16-bit truncation lets
    no other port through - and a transport passes exactly when it is
    "tcp". *)
Theorem DefaultDialer_ports_nets (d : Dialer) :
  DefaultDialer = Returns d ->
  (forall p, 0 <= p <= 65535 ->
     (allowedPort d (int16 p) = true
      <-> p = 80 \/ p = 443 \/ p = 8080 \/ p = 8443))
  /\ (forall network, allowedNet d network = true <-> network = "tcp").
Proof. exact (DefaultDialer_ports_nets_aux d). Qed.


End PortText.

(** ** dialer.go: [Dial] and [dialSerial] as a whole *)

Section Whole.
Context {N : NetLib} (W : World).


Lemma clockReads_length (T : Duration) (D : time.Time) (tr : Trace) :
  (List.length (clockReads W T D tr) <= 2)%nat.
Proof.
  unfold clockReads. cbn zeta.
  destruct (T >? 0); destruct (effectiveDeadline T D _ =? 0); cbn; lia.
Qed.

(** What one call of [dialSerial] adds to the history. *)
Lemma dialSerial_shape (d : Dialer) (network addr : string) (ips : list IP)
    (port : string) (tr : Trace) :
  exists dialer pre rs,
    snd (dialSerial W d network addr ips port tr)
    = tr ++ pre ++ attempts dialer network (map (target port) ips) rs
    /\ Forall (fun ev => isNow ev = true) pre
    /\ (List.length pre <= 2)%nat
    /\ (List.length rs <= List.length ips)%nat
    /\ nd_KeepAlive dialer = KeepAlive d
    /\ nd_LocalAddr dialer = LocalAddr d.
Proof.
  destruct ips as [|ip ips].
  - exists (mkNetDialer 0 0 (KeepAlive d) (LocalAddr d)),
      (clockReads W (Timeout d) (Deadline d) tr), [].
    rewrite dialSerial_empty. cbn [snd attempts map combine app].
    rewrite app_nil_r.
    repeat split; try reflexivity; try lia.
    + apply (clockReads_dials W).
    + apply clockReads_length.
  - destruct (dialSerial_spec W d network addr (ip :: ips) port tr
                ltac:(discriminate)) as (Htr & Hshape).
    cbn zeta in Htr, Hshape.
    eexists _, (clockReads W (Timeout d) (Deadline d) tr), _.
    split; [rewrite Htr, <- app_assoc; reflexivity|].
    split; [apply (clockReads_dials W)|].
    split; [apply clockReads_length|].
    split; [|split; reflexivity].
    destruct Hshape as [(errs & c & _ & H & _)|(e & errs & _ & H & _)]; lia.
Qed.


(** The ways a call of [Dial] can go. *)
Lemma Dial_cases (d : Dialer) (network addr : string) (tr0 : Trace) :
  exists pl,
    (pl = [] \/ exists service x, pl = [EvLookupPort network service x])
    /\ ((exists e, Dial W d network addr tr0 = (Returns (Err e), tr0 ++ pl))
        \/ (exists e host r,
               Dial W d network addr tr0
               = (Returns (Err e), tr0 ++ pl ++ [EvLookupIP host r])
               /\ (r = Err e
                   \/ exists ips ip,
                        r = Ok ips /\ In ip ips /\ allowedIP d ip = false))
        \/ (exists host port portnum ips,
               allowedNet d network = true
               /\ SplitHostPort addr = Ok (host, port)
               /\ allowedPort d (int16 portnum) = true
               /\ w_LookupIP W (tr0 ++ pl) host = Ok ips
               /\ Forall (fun ip => allowedIP d ip = true) ips
               /\ Dial W d network addr tr0
                  = dialSerial W d network addr ips (Itoa portnum)
                      (tr0 ++ pl ++ [EvLookupIP host (Ok ips)]))).
Proof.
  destruct (allowedNet d network) eqn:Hnet.
  2:{ exists []. split; [auto|]. left. eexists. rewrite app_nil_r.
      now apply Dial_invalid_net. }
  destruct (SplitHostPort addr) as [[host port]|err] eqn:Hsplit.
  2:{ exists []. split; [auto|]. left. eexists. rewrite app_nil_r.
      eapply Dial_bad_address; eassumption. }
  destruct (parsePort_spec W network port tr0) as (r & tr1 & Hport & Htr1 & _).
  assert (Hpl : exists pl, tr1 = tr0 ++ pl
            /\ (pl = [] \/ exists service x, pl = [EvLookupPort network service x])).
  { destruct Htr1 as [->|[x ->]].
    - exists []. rewrite app_nil_r. auto.
    - eexists. split; [reflexivity|]. right. eauto. }
  destruct Hpl as (pl & -> & Hpl). exists pl. split; [exact Hpl|].
  destruct r as [portnum|err].
  2:{ left. eexists. eapply Dial_bad_port; eauto. }
  destruct (allowedPort d (int16 portnum)) eqn:Hp.
  2:{ left. eexists. eapply Dial_blocked_port; eauto. }
  destruct (w_LookupIP W (tr0 ++ pl) host) as [ips|err] eqn:Hips.
  2:{ right. left. exists err, host, (Err err). split; [|auto].
      rewrite app_assoc. eapply Dial_unresolved; eauto. }
  pose proof (Dial_resolved W d network addr host port portnum ips tr0
                (tr0 ++ pl) Hnet Hsplit Hport Hp Hips) as Hrun.
  destruct (find (fun ip => negb (allowedIP d ip)) ips) as [ip|] eqn:Hfind.
  - right. left. eexists _, host, (Ok ips). split.
    + rewrite app_assoc. exact Hrun.
    + right. apply find_some in Hfind. destruct Hfind as [Hin Hb].
      apply negb_true_iff in Hb. eauto.
  - right. right. exists host, port, portnum, ips.
    repeat split; auto.
    + apply Forall_forall. intros x Hx.
      pose proof (find_none _ _ Hfind x Hx) as Hb.
      now apply negb_false_iff in Hb.
    + rewrite app_assoc. exact Hrun.
Qed.

(** One call of [Dial] adds to the history, in this order: at most one
    service lookup, at most one DNS lookup, at most two clock readings,
    and at most one connection attempt per resolved address.  All the
    attempts are made on the network given to [Dial] and with one and the
    same net.Dialer, which carries the configured KeepAlive and
    LocalAddr.  No host is resolved twice and no address is retried. *)
Theorem Dial_history_shape (d : Dialer) (network addr : string)
    (tr0 : Trace) :
  exists pl il dialer pre addrs rs,
    snd (Dial W d network addr tr0)
    = tr0 ++ pl ++ il ++ pre ++ attempts dialer network addrs rs
    /\ (pl = [] \/ exists service x, pl = [EvLookupPort network service x])
    /\ ((il = [] /\ pre = [] /\ rs = [])
        \/ (exists host err,
               il = [EvLookupIP host (Err err)] /\ pre = [] /\ rs = [])
        \/ (exists host ips portnum,
               il = [EvLookupIP host (Ok ips)]
               /\ addrs = map (target (Itoa portnum)) ips
               /\ (List.length rs <= List.length ips)%nat))
    /\ Forall (fun ev => isNow ev = true) pre
    /\ (List.length pre <= 2)%nat
    /\ nd_KeepAlive dialer = KeepAlive d
    /\ nd_LocalAddr dialer = LocalAddr d.
Proof.
  pose (dl0 := mkNetDialer 0 0 (KeepAlive d) (LocalAddr d)).
  destruct (Dial_cases d network addr tr0)
    as (pl & Hpl & [(e & Hrun)|[(e & host & r & Hrun & Hr)
                   |(host & port & portnum & ips & _ & _ & _ & _ & _ & Hrun)]]).
  - exists pl, [], dl0, [], [], []. rewrite Hrun. cbn [snd attempts map combine app].
    rewrite app_nil_r. repeat split; auto.
  - exists pl, [EvLookupIP host r], dl0, [].
    destruct Hr as [->|(ips & ip & -> & _ & _)].
    + exists [], []. rewrite Hrun. cbn [snd attempts map combine app].
      repeat split; auto. right. left. eauto.
    + exists (map (target (Itoa 0)) ips), []. rewrite Hrun.
      unfold attempts. rewrite combine_nil. cbn [snd map app].
      repeat split; auto. right. right. exists host, ips, 0.
      repeat split; cbn; lia.
  - destruct (dialSerial_shape d network addr ips (Itoa portnum)
                (tr0 ++ pl ++ [EvLookupIP host (Ok ips)]))
      as (dialer & pre & rs & Htr & Hnow & Hlen & Hrs & HK & HL).
    exists pl, [EvLookupIP host (Ok ips)], dialer, pre,
      (map (target (Itoa portnum)) ips), rs.
    rewrite Hrun, Htr. split; [now rewrite <- !app_assoc|].
    split; [exact Hpl|]. split; [|auto].
    right. right. exists host, ips, portnum. auto.
Qed.



(** With neither a timeout nor a deadline (a negative timeout counts as
    none), [dialSerial] does not read the clock, hands net.Dialer the
    configured fields unchanged - the negative timeout included - and
    never panics; without candidates it returns the "no IP addresses
    found" error naming the address. *)
Theorem dialSerial_no_budget (d : Dialer) (network addr : string)
    (ips : list IP) (port : string) (tr0 : Trace) :
  Timeout d <= 0 ->
  Deadline d = 0 ->
  let dialer :=
    mkNetDialer (Timeout d) 0 (KeepAlive d) (LocalAddr d) in
  snd (dialSerial W d network addr ips port tr0)
  = tr0 ++ attempts dialer network (map (target port) ips)
             (worldAnswers W dialer network tr0 (map (target port) ips))
  /\ (exists r, fst (dialSerial W d network addr ips port tr0) = Returns r)
  /\ (ips = [] ->
      fst (dialSerial W d network addr ips port tr0)
      = Returns (Err (ErrNoAddresses addr))).
Proof.
  intros HT HD. cbn zeta.
  assert (HE : forall t, effectiveDeadline (Timeout d) (Deadline d) t = 0).
  { intros t. unfold effectiveDeadline.
    now replace (Timeout d >? 0) with false by lia. }
  assert (Hc : clockReads W (Timeout d) (Deadline d) tr0 = []).
  { unfold clockReads. cbn zeta. rewrite HE.
    now replace (Timeout d >? 0) with false by lia. }
  destruct ips as [|ip ips].
  - rewrite dialSerial_empty. cbn zeta. rewrite HE, Hc. cbn. eauto.
  - destruct (dialSerial_spec W d network addr (ip :: ips) port tr0
                ltac:(discriminate)) as (Htr & Hshape).
    cbn zeta in Htr, Hshape. rewrite HE, Hc, app_nil_r in Htr, Hshape.
    unfold attemptTimeout in Htr, Hshape. cbn [Z.eqb] in Htr, Hshape.
    split; [exact Htr|]. split; [|discriminate].
    destruct Hshape as [(? & c & _ & _ & ->)|(e & ? & _ & _ & ->)]; eauto.
Qed.

(** An empty allow-list fails closed and an empty block-list fails open:
    with no allowed transport every dial is "invalid net" with nothing
    looked up; with no allowed port every dial is an error with no DNS
    lookup and no connection attempt; with no blocked range and the four
    flags cleared every address is allowed. *)
Theorem Dial_fail_closed (d : Dialer) :
  (AllowedNets d = [] ->
   forall network addr tr0,
     Dial W d network addr tr0
     = (Returns (Err (ErrInvalidNet network addr)), tr0))
  /\ (AllowedPorts d = [] ->
      forall network addr tr0,
        exists e tr,
          Dial W d network addr tr0 = (Returns (Err e), tr)
          /\ lookups tr = lookups tr0 /\ dials tr = dials tr0)
  /\ (BlockedRanges d = [] ->
      BlockPrivate d = false -> BlockLinkLocal d = false ->
      BlockMulticast d = false -> BlockUnspecified d = false ->
      forall ip, allowedIP d ip = true).
Proof.
  split; [|split].
  - intros H network addr tr0. apply Dial_invalid_net.
    unfold allowedNet. now rewrite H.
  - intros H network addr tr0.
    assert (Hp : forall p, allowedPort d p = false)
      by (intros p; unfold allowedPort; now rewrite H).
    destruct (allowedNet d network) eqn:Hnet.
    2:{ eexists _, tr0. split; [now apply Dial_invalid_net|auto]. }
    destruct (SplitHostPort addr) as [[host port]|err] eqn:Hsplit.
    2:{ eexists _, tr0. split; [eapply Dial_bad_address; eassumption|auto]. }
    destruct (parsePort_spec W network port tr0) as (r & tr1 & Hport & _ & _).
    destruct (parsePort_extends W _ _ _ _ _ Hport) as (_ & _ & Hd & Hl).
    destruct r as [portnum|err].
    + eexists _, tr1. split; [eapply Dial_blocked_port; eauto|auto].
    + eexists _, tr1. split; [eapply Dial_bad_port; eauto|auto].
  - intros HR H1 H2 H3 H4 ip. unfold allowedIP.
    now rewrite HR, H1, H2, H3, H4.
Qed.

End Whole.

(** ** Initialisation of the default policy, and the earlier revision *)

Section Init.
Context {N : NetLib}.

Lemma cidrRanges_panics (strs : list string) (msg : string) :
  cidrRanges strs = Panics msg <->
  exists pre str post err,
    strs = pre ++ str :: post
    /\ Forall (fun s => exists net, ParseCIDR s = Ok net) pre
    /\ ParseCIDR str = Err err
    /\ msg = Error err.
Proof.
  revert msg. induction strs as [|s strs IH]; intros msg; cbn [cidrRanges].
  - split; [discriminate|].
    intros (pre & str & post & err & H & _). destruct pre; discriminate.
  - unfold cidrRange. destruct (ParseCIDR s) as [net|err] eqn:E.
    + destruct (cidrRanges strs) as [nets|msg'] eqn:Er.
      * split; [discriminate|].
        intros (pre & str & post & err & H & Hpre & Hstr & Hmsg).
        destruct pre as [|s' pre]; cbn in H; injection H as <- ->.
        -- congruence.
        -- inversion Hpre; subst.
           assert (Hp : Returns nets = Panics (A:=list IPNet) (Error err))
             by (apply IH; eauto 8).
           discriminate.
      * split.
        -- intros [= <-].
           destruct (proj1 (IH msg') eq_refl)
             as (pre & str & post & err & -> & Hpre & Hstr & ->).
           exists (s :: pre), str, post, err. repeat split; auto.
           constructor; eauto.
        -- intros (pre & str & post & err & H & Hpre & Hstr & ->).
           destruct pre as [|s' pre]; cbn in H; injection H as <- ->.
           ++ congruence.
           ++ inversion Hpre; subst. f_equal.
              assert (Hp : Panics (A:=list IPNet) msg' = Panics (Error err))
                by (apply IH; eauto 8).
              now injection Hp.
    + split.
      * intros [= <-]. exists [], s, strs, err. repeat split; auto.
      * intros (pre & str & post & err' & H & Hpre & Hstr & ->).
        destruct pre as [|s' pre]; cbn in H; injection H as <- ->.
        -- congruence.
        -- inversion Hpre as [|? ? [net Hnet] ?]; subst. congruence.
Qed.

(** The initialiser of [DefaultDialer] yields a policy exactly when
    net.ParseCIDR accepts every literal of the table; otherwise it panics
    with the error of the first literal that is refused. *)
Theorem DefaultDialer_initialisation :
  ((exists d, DefaultDialer = Returns d)
   <-> Forall (fun s => exists net, ParseCIDR s = Ok net) DefaultRanges)
  /\ (forall msg,
        DefaultDialer = Panics msg <->
        exists pre str post err,
          DefaultRanges = pre ++ str :: post
          /\ Forall (fun s => exists net, ParseCIDR s = Ok net) pre
          /\ ParseCIDR str = Err err
          /\ msg = Error err).
Proof.
  assert (Hp : forall msg,
    DefaultDialer = Panics msg <-> cidrRanges DefaultRanges = Panics msg).
  { intros msg. unfold DefaultDialer.
    destruct (cidrRanges DefaultRanges); split; congruence. }
  split.
  - split.
    + intros (d & H). unfold DefaultDialer in H.
      destruct (cidrRanges DefaultRanges) as [nets|msg] eqn:E; [|discriminate].
      apply cidrRanges_parsed in E.
      clear H Hp. induction E; constructor; eauto.
    + intros Hall. unfold DefaultDialer.
      destruct (cidrRanges DefaultRanges) as [nets|msg] eqn:E; [eauto|].
      exfalso. apply cidrRanges_panics in E.
      destruct E as (pre & str & post & err & Hdec & _ & Hstr & _).
      rewrite Forall_forall in Hall.
      destruct (Hall str) as (net & Hnet); [|congruence].
      rewrite Hdec. apply in_elt.
  - intros msg. rewrite Hp. apply cidrRanges_panics.
Qed.

(** The current [allowedIP] refuses every address that the earlier
    revision's [allowedIP] refuses with the same list of blocked ranges,
    and the two agree when the four classification flags are cleared. *)
Theorem allowedIP_legacy (d : Dialer) (ip : IP) :
  (allowedIP d ip = true ->
   Proxydialer.allowedIP (BlockedRanges d) ip = true)
  /\ (BlockPrivate d = false -> BlockLinkLocal d = false ->
      BlockMulticast d = false -> BlockUnspecified d = false ->
      allowedIP d ip = Proxydialer.allowedIP (BlockedRanges d) ip).
Proof.
  unfold allowedIP, Proxydialer.allowedIP. split.
  - destruct (BlockPrivate d && _); [discriminate|].
    destruct (BlockLinkLocal d && _); [discriminate|].
    destruct (BlockMulticast d && _); [discriminate|].
    destruct (BlockUnspecified d && _); [discriminate|auto].
  - intros -> -> -> ->. reflexivity.
Qed.

End Init.

(** ** The further properties on the simulated world *)

Lemma dtoi_decimal_witness :
  dtoi "8080/tcp" 0 = (8080, 4%nat, true).
Proof.
  exact (dtoi_decimal "8080" "/tcp" ltac:(discriminate) eq_refl eq_refl
           eq_refl).
Defined.

Lemma dtoi_overflow_witness :
  exists j, (j < 8)%nat /\ dtoi "16777215" 0 = (0, j, false).
Proof.
  exact (dtoi_overflow "16777215" "" eq_refl ltac:(discriminate)).
Defined.

Lemma parsePort_decimal_witness :
  parsePort Sim.world "tcp" "8080" [] = (Returns (Ok 8080), []).
Proof.
  exact (parsePort_decimal Sim.world "tcp" "8080" [] ltac:(discriminate)
           eq_refl eq_refl).
Defined.

Lemma parsePort_service_witness :
  parsePort Sim.world "tcp" "http" []
  = (Returns (Ok 80), [EvLookupPort "tcp" "http" (Ok 80)]).
Proof.
  exact (parsePort_service Sim.world "tcp" "http" []
           (or_intror (or_introl eq_refl))).
Defined.

Lemma Dial_numeric_port_blocked_witness :
  Dial Sim.world Sim.defaultDialer "tcp" "example.org:25" []
  = (Returns (Err (ErrBlockedPort "example.org:25")), []).
Proof.
  apply (Dial_numeric_port_blocked Sim.world Sim.defaultDialer "tcp"
           "example.org:25" "example.org" "25" []);
    try reflexivity; try discriminate.
  cbn. intuition discriminate.
Defined.

Lemma DefaultDialer_ports_nets_witness :
  @DefaultDialer goNet = Returns Sim.defaultDialer
  /\ (allowedNet Sim.defaultDialer "udp" = true <-> "udp" = "tcp").
Proof.
  assert (H : @DefaultDialer goNet = Returns Sim.defaultDialer)
    by reflexivity.
  split; [exact H|].
  exact (proj2 (DefaultDialer_ports_nets Sim.defaultDialer H) "udp").
Defined.




Lemma dialSerial_no_budget_witness :
  Timeout Sim.defaultDialer <= 0
  /\ Deadline Sim.defaultDialer = 0
  /\ exists r,
       fst (dialSerial Sim.world Sim.defaultDialer "tcp" "down.example:80"
              Sim.downIPs "80" []) = Returns r.
Proof.
  assert (H1 : Timeout Sim.defaultDialer <= 0) by discriminate.
  assert (H2 : Deadline Sim.defaultDialer = 0) by reflexivity.
  split; [exact H1|]. split; [exact H2|].
  exact (proj1 (proj2 (dialSerial_no_budget Sim.world Sim.defaultDialer
                         "tcp" "down.example:80" Sim.downIPs "80" [] H1 H2))).
Defined.
